(** * The viewer client of the pool server: session state machine

    A shallow embedding of [scripts/viewer.py].  The periodic task
    [Viewer.update] is a function from the viewer object and what the
    environment delivers during one tick (the outcome of [sock.connect], the
    value returned by [buffer.pop_msg()]) to the task's result: [task.again],
    [task.done] or an exception that leaves the method.  The three coroutine
    handlers ([on_game_over], [update_score], [animate_shot]) are lists of
    pauses and actions. *)

From Stdlib Require Import ZArith NArith QArith Qabs List String Ascii Bool Lia Lqa.
From Stdlib Require Import DecimalString.
Import ListNotations.

Local Open Scope string_scope.
Local Open Scope list_scope.

(** ** Python values used by the viewer *)

(** [str.upper()] for strings of ASCII characters (the letters a to z are
    mapped, every other ASCII character is kept); names with letters outside
    ASCII are not covered. *)
Definition upper_ascii (c : ascii) : ascii :=
  let n := nat_of_ascii c in
  if (97 <=? n)%nat && (n <=? 122)%nat then ascii_of_nat (n - 32) else c.

Fixpoint upper (s : string) : string :=
  match s with
  | EmptyString => EmptyString
  | String c rest => String (upper_ascii c) (upper rest)
  end.

(** [str(n)] for a Python [int]. *)
Definition str_int (n : Z) : string := NilZero.string_of_int (Z.to_int n).

(** A [uuid.UUID], by its 128-bit [int] value. *)
Definition UUID := N.

Definition hex_digit (d : N) : ascii :=
  nth (N.to_nat d) (list_ascii_of_string "0123456789abcdef") "0"%char.

Fixpoint hex_digits (k : nat) (n : N) (acc : string) : string :=
  match k with
  | O => acc
  | S k' => hex_digits k' (N.div n 16) (String (hex_digit (N.modulo n 16)) acc)
  end.

(** [str(u)] for a [uuid.UUID]: 32 hexadecimal digits grouped 8-4-4-4-12. *)
Definition str_UUID (u : UUID) : string :=
  let h := hex_digits 32 u "" in
  substring 0 8 h ++ "-" ++ substring 8 4 h ++ "-" ++ substring 12 4 h
    ++ "-" ++ substring 16 4 h ++ "-" ++ substring 20 12 h.

(** The exceptions that can leave the methods of the viewer. *)
Inductive OSErrorKind : Type :=
| ConnectionRefusedError
| BlockingIOError
| TimeoutError
| OtherOSError (errno : Z).

Inductive Exn : Type :=
| OSError (kind : OSErrorKind)
| NotImplementedError (msg : string)
| AttributeError (msg : string)
| IndexError (msg : string).

(** [logging] records: level and text. *)
Inductive LogLevel : Type := DEBUG | INFO | WARNING.

Definition LogRecord : Type := (LogLevel * string)%type.

(** ** pooltool: the parts of a system the viewer reads

    Time values are Python floats; the viewer performs no arithmetic on them
    (it only hands them to [Task.pause]), and the constants it names (1.5 and
    2.5) are dyadic, so rationals represent them exactly. *)
Module pt.

Record System : Type := mkSystem {
  t : Q;                (* the simulation clock of the snapshot *)
  content : string      (* table, balls and cue: opaque to the viewer *)
}.

Record Player : Type := mkPlayer { name : string }.

Record ShotInfo : Type := mkShotInfo {
  player : Player;
  game_over : bool;
  winner : option Player   (* [None] unless the game is over *)
}.

Inductive GameType : Type := NINEBALL | EIGHTBALL.

End pt.

(** [get_initial_system]: a freshly racked table at clock zero. *)
Definition get_initial_system (game_type : pt.GameType) : pt.System :=
  pt.mkSystem 0
    match game_type with
    | pt.NINEBALL => "nineball rack"
    | pt.EIGHTBALL => "eightball rack"
    end.

(** A Python [dict] from player name to score, in insertion order. *)
Definition Scores : Type := list (string * Z).

Definition keys (scores : Scores) : list string := map fst scores.
Definition values (scores : Scores) : list Z := map snd scores.

(** ** msgutil *)
Module msgutil.

(** Modelled from the spec: [modules/msgutil.py] is not part of the
    sources at hand.  The connection kind is an enumeration of which this
    client always sends the viewer member; [PLAYER] stands for the other
    kinds. *)
Inductive ConnectionType : Type := VIEWER | PLAYER.

(** Modelled from the spec: the message classes of [modules/msgutil.py],
    the closed set of five variants with the fields the spec lists and the
    attribute names the viewer reads ([secret], [reason], [system],
    [shot_info], [scores]). *)
Inductive Message : Type :=
| LoginMessage (name : string) (secret : option UUID) (conn_type : ConnectionType)
| LoginSuccessMessage (secret : UUID)
| LoginFailedMessage (reason : string)
| ConnectionClosedMessage
| BroadcastMessage (system : pt.System) (shot_info : pt.ShotInfo) (scores : Scores).

(** Modelled from the spec: [msgutil.MessageBuffer], of which the model
    keeps the [run] flag it is built with and every message handed to
    [push_msg], oldest first.  What [update()] reads from the socket and
    what [pop_msg()] then returns is supplied by the environment of each
    tick (see [TickEnv]). *)
Record MessageBuffer : Type := mkMessageBuffer {
  run_flag : bool;
  pushed : list Message
}.

Definition new_MessageBuffer (run : bool) : MessageBuffer :=
  mkMessageBuffer run [].

Definition push_msg (b : MessageBuffer) (m : Message) : MessageBuffer :=
  mkMessageBuffer (run_flag b) (pushed b ++ [m]).

End msgutil.

Import msgutil.

(** ** The socket *)

Definition Address : Type := (string * Z)%type.

Inductive SockCall : Type :=
| CallConnect (addr : Address) (blocking_mode : bool)
| CallSetBlocking (flag : bool)
| CallClose.

(** A stream socket: its mode, whether it is connected or closed, and the
    calls the methods of the viewer have made on it so far (oldest first).
    The reads and writes that the message buffer makes on the same socket
    are not part of this record. *)
Record Socket : Type := mkSocket {
  blocking : bool;
  connected : bool;
  closed : bool;
  calls : list SockCall
}.

(** [socket.socket(AF_INET, SOCK_STREAM)]: sockets are created blocking. *)
Definition new_socket : Socket := mkSocket true false false [].

(** What one call of [sock.connect(address)] does, for an address the socket
    layer accepts (a port within 0..65535): it returns, or it raises an
    [OSError]. *)
Inductive ConnectOutcome : Type :=
| ConnectOk
| ConnectRaises (kind : OSErrorKind).

Definition sock_connect (s : Socket) (addr : Address) (o : ConnectOutcome)
  : (OSErrorKind * Socket) + Socket :=
  let called := calls s ++ [CallConnect addr (blocking s)] in
  match o with
  | ConnectOk => inr (mkSocket (blocking s) true (closed s) called)
  | ConnectRaises k => inl (k, mkSocket (blocking s) (connected s) (closed s) called)
  end.

Definition sock_setblocking (s : Socket) (flag : bool) : Socket :=
  mkSocket flag (connected s) (closed s) (calls s ++ [CallSetBlocking flag]).

Definition sock_close (s : Socket) : Socket :=
  mkSocket (blocking s) false true (calls s ++ [CallClose]).

(** ** The render side: on-screen texts and the system controller *)

Record OnscreenText : Type := mkOnscreenText {
  text : string;
  hidden : bool
}.

Definition set_text (o : OnscreenText) (s : string) : OnscreenText :=
  mkOnscreenText s (hidden o).
Definition show (o : OnscreenText) : OnscreenText := mkOnscreenText (text o) false.
Definition hide (o : OnscreenText) : OnscreenText := mkOnscreenText (text o) true.

Inductive ControllerCall : Type :=
| attach_system (s : pt.System)
| buildup
| build_shot_animation
| cue_hide_nodes
| animate
| advance_to_end_of_stroke.

(** The [SystemController]: the calls made on it, oldest first. *)
Definition SystemController : Type := list ControllerCall.

(** The events handed to [messenger.send], with their argument lists. *)
Inductive Event : Type :=
| Ev_game_over (winner : string) (wait : Q)
| Ev_update_score (scores : Scores) (wait : Q)
| Ev_animate_shot.

(** ** The viewer *)

Inductive ViewerState : Type :=
| WaitingForConnection
| ConnectionPending
| Viewing.

(** The value held by the attribute [state]: a member of [ViewerState], or
    any other Python object. *)
Inductive StateValue : Type :=
| Member (s : ViewerState)
| Foreign (repr : string).

Record Viewer : Type := mkViewer {
  address : Address;
  system : pt.System;
  controller : SystemController;
  state : StateValue;
  sock : Socket;
  buffer : option MessageBuffer;     (* unset until the connection succeeds *)
  name : string;
  secret : option UUID;
  score_display : OnscreenText;
  turn_indicator : OnscreenText;
  game_over_text : OnscreenText;
  log : list LogRecord;              (* the records handed to [logging], oldest first *)
  sent : list Event                  (* what [messenger.send] was given, oldest first *)
}.

Definition set_state (v : Viewer) (x : StateValue) : Viewer :=
  mkViewer (address v) (system v) (controller v) x (sock v) (buffer v) (name v)
    (secret v) (score_display v) (turn_indicator v) (game_over_text v) (log v) (sent v).

Definition set_sock (v : Viewer) (x : Socket) : Viewer :=
  mkViewer (address v) (system v) (controller v) (state v) x (buffer v) (name v)
    (secret v) (score_display v) (turn_indicator v) (game_over_text v) (log v) (sent v).

Definition set_buffer (v : Viewer) (x : option MessageBuffer) : Viewer :=
  mkViewer (address v) (system v) (controller v) (state v) (sock v) x (name v)
    (secret v) (score_display v) (turn_indicator v) (game_over_text v) (log v) (sent v).

Definition set_system (v : Viewer) (x : pt.System) : Viewer :=
  mkViewer (address v) x (controller v) (state v) (sock v) (buffer v) (name v)
    (secret v) (score_display v) (turn_indicator v) (game_over_text v) (log v) (sent v).

Definition set_controller (v : Viewer) (x : SystemController) : Viewer :=
  mkViewer (address v) (system v) x (state v) (sock v) (buffer v) (name v)
    (secret v) (score_display v) (turn_indicator v) (game_over_text v) (log v) (sent v).

Definition set_score_display (v : Viewer) (x : OnscreenText) : Viewer :=
  mkViewer (address v) (system v) (controller v) (state v) (sock v) (buffer v) (name v)
    (secret v) x (turn_indicator v) (game_over_text v) (log v) (sent v).

Definition set_turn_indicator (v : Viewer) (x : OnscreenText) : Viewer :=
  mkViewer (address v) (system v) (controller v) (state v) (sock v) (buffer v) (name v)
    (secret v) (score_display v) x (game_over_text v) (log v) (sent v).

Definition set_game_over_text (v : Viewer) (x : OnscreenText) : Viewer :=
  mkViewer (address v) (system v) (controller v) (state v) (sock v) (buffer v) (name v)
    (secret v) (score_display v) (turn_indicator v) x (log v) (sent v).

(** [logging.info] and [logging.warning]. *)
Definition logging (v : Viewer) (level : LogLevel) (msg : string) : Viewer :=
  mkViewer (address v) (system v) (controller v) (state v) (sock v) (buffer v) (name v)
    (secret v) (score_display v) (turn_indicator v) (game_over_text v)
    (log v ++ [(level, msg)]) (sent v).

(** [self.messenger.send]. *)
Definition messenger_send (v : Viewer) (e : Event) : Viewer :=
  mkViewer (address v) (system v) (controller v) (state v) (sock v) (buffer v) (name v)
    (secret v) (score_display v) (turn_indicator v) (game_over_text v) (log v)
    (sent v ++ [e]).

Definition controller_call (v : Viewer) (c : ControllerCall) : Viewer :=
  set_controller v (controller v ++ [c]).

(** [Viewer.__init__], from the address, the name and the secret already
    parsed into a UUID: the state machine starts in [WaitingForConnection]
    on a fresh socket and without a buffer; the three texts start empty and
    the game-over text hidden. *)
Definition new_Viewer (addr : Address) (nm : string) (sec : option UUID) : Viewer :=
  let sys := get_initial_system pt.NINEBALL in
  mkViewer addr sys [attach_system sys; buildup; cue_hide_nodes]
    (Member WaitingForConnection) new_socket None nm sec
    (mkOnscreenText "" false) (mkOnscreenText "" false) (mkOnscreenText "" true)
    [] [].

(** ** One tick of [Viewer.update] *)

(** What the environment supplies during one tick: the outcome of
    [sock.connect] should it be called, and the value [buffer.pop_msg()]
    returns after [buffer.update()] should they be called. *)
Record TickEnv : Type := mkTickEnv {
  connect_outcome : ConnectOutcome;
  popped : option Message
}.

(** A tick on which no message is ready, and one on which [m] is popped
    (the connect outcome matters only while waiting for the connection). *)
Definition nothing_arrives : TickEnv := mkTickEnv ConnectOk None.

Definition arrives (m : Message) : TickEnv := mkTickEnv ConnectOk (Some m).

(** How a call of the task ends. *)
Inductive TaskResult : Type :=
| task_again (v : Viewer)
| task_done (v : Viewer)
| raised (e : Exn) (v : Viewer).

(** [except ConnectionRefusedError]. *)
Definition is_ConnectionRefusedError (k : OSErrorKind) : bool :=
  match k with
  | ConnectionRefusedError => true
  | _ => false
  end.

(** The [BroadcastMessage] branch of the viewing state. *)
Definition on_broadcast (self : Viewer) (sys : pt.System) (shot_info : pt.ShotInfo)
    (scores : Scores) : TaskResult :=
  (* del self.system; the turn indicator; self.system = msg.system *)
  let self := set_turn_indicator self
    (set_text (turn_indicator self)
       ("Active player: " ++ upper (pt.name (pt.player shot_info)))) in
  let self := set_system self sys in
  let after_game_over :=
    if pt.game_over shot_info then
      match pt.winner shot_info with
      | Some w => inr (messenger_send self (Ev_game_over (pt.name w) (pt.t (system self))))
      | None => inl (AttributeError "'NoneType' object has no attribute 'name'")
      end
    else inr self in
  match after_game_over with
  | inl e => raised e self
  | inr self =>
      let self := messenger_send self (Ev_update_score scores (pt.t (system self))) in
      let self := controller_call self (attach_system (system self)) in
      let self := controller_call self buildup in
      let self := controller_call self build_shot_animation in
      let self := controller_call self cue_hide_nodes in
      let self := messenger_send self Ev_animate_shot in
      task_again self
  end.

Definition update (self : Viewer) (env : TickEnv) : TaskResult :=
  match state self with
  | Member WaitingForConnection =>
      match sock_connect (sock self) (address self) (connect_outcome env) with
      | inr s =>
          let s := sock_setblocking s false in
          let self := set_sock self s in
          let b := new_MessageBuffer false in
          let b := push_msg b (LoginMessage (name self) (secret self) VIEWER) in
          let self := set_buffer self (Some b) in
          task_again (set_state self (Member ConnectionPending))
      | inl (k, s) =>
          let self := set_sock self s in
          if is_ConnectionRefusedError k then task_again self
          else raised (OSError k) self
      end
  | Member ConnectionPending =>
      match buffer self with
      | None => raised (AttributeError "'Viewer' object has no attribute 'buffer'") self
      | Some _ =>
          match popped env with
          | None => task_again self
          | Some ConnectionClosedMessage =>
              task_done (logging self INFO "Server disconnected!")
          | Some (LoginSuccessMessage sec) =>
              let self := logging self INFO ("Connected! Secret: " ++ str_UUID sec) in
              task_again (set_state self (Member Viewing))
          | Some (LoginFailedMessage reason) =>
              task_done (logging self INFO ("Failed to connect! " ++ reason))
          | Some _ =>
              task_again (logging self WARNING "Unexpected message!")
          end
      end
  | Member Viewing =>
      match buffer self with
      | None => raised (AttributeError "'Viewer' object has no attribute 'buffer'") self
      | Some _ =>
          match popped env with
          | None => task_again self
          | Some ConnectionClosedMessage =>
              task_done (logging self INFO "Server disconnected!")
          | Some (BroadcastMessage sys shot_info scores) =>
              on_broadcast self sys shot_info scores
          | Some _ =>
              task_again (logging self WARNING "Unexpected message!")
          end
      end
  | Foreign _ => raised (NotImplementedError "Unkown state!") self
  end.

(** [Viewer.exit], the function installed as [exitFunc]. *)
Definition exit (self : Viewer) : Viewer := set_sock self (sock_close (sock self)).

(** ** The task manager: ticks until the task ends *)

(** Where the periodic task stands: still scheduled, removed after it
    returned [task.done] (the terminal state the design calls Closed), or
    ended by an exception. *)
Inductive Phase : Type :=
| Scheduled (v : Viewer)
| Closed (v : Viewer)
| Crashed (e : Exn) (v : Viewer).

(** The task is called again after [task.again] and never after anything else. *)
Fixpoint run (v : Viewer) (envs : list TickEnv) : Phase :=
  match envs with
  | [] => Scheduled v
  | env :: rest =>
      match update v env with
      | task_again v' => run v' rest
      | task_done v' => Closed v'
      | raised e v' => Crashed e v'
      end
  end.

(** The viewer after each tick that was executed. *)
Fixpoint run_trace (v : Viewer) (envs : list TickEnv) : list Viewer :=
  match envs with
  | [] => []
  | env :: rest =>
      match update v env with
      | task_again v' => v' :: run_trace v' rest
      | task_done v' => [v']
      | raised _ v' => [v']
      end
  end.

Definition states_after (v : Viewer) (envs : list TickEnv) : list StateValue :=
  map state (run_trace v envs).

Definition ViewerState_eqb (a b : ViewerState) : bool :=
  match a, b with
  | WaitingForConnection, WaitingForConnection => true
  | ConnectionPending, ConnectionPending => true
  | Viewing, Viewing => true
  | _, _ => false
  end.

Definition StateValue_eqb (a b : StateValue) : bool :=
  match a, b with
  | Member x, Member y => ViewerState_eqb x y
  | Foreign x, Foreign y => String.eqb x y
  | _, _ => false
  end.

(** How many times a run moves into [s] from another state: [prev] is the
    state before the first tick, [l] the states after each tick. *)
Fixpoint entries (s prev : StateValue) (l : list StateValue) : nat :=
  match l with
  | [] => 0
  | b :: rest =>
      (if negb (StateValue_eqb prev s) && StateValue_eqb b s then 1 else 0)
      + entries s b rest
  end.

(** Every message handed to [push_msg] so far. *)
Definition outgoing (v : Viewer) : list Message :=
  match buffer v with
  | None => []
  | Some b => pushed b
  end.

(** ** The coroutine handlers *)

Inductive Action : Type :=
| SetGameOverText (s : string)
| ShowGameOverText
| HideGameOverText
| SetScoreDisplay (s : string)
| ControllerAnimate
| ControllerAdvanceToEndOfStroke.

(** A coroutine: [await Task.pause(d)], an action on the viewer, or an
    exception raised while it runs. *)
Inductive Step : Type :=
| Pause (d : Q)
| Do (a : Action)
| Raise (e : Exn).

Definition Coroutine : Type := list Step.

Definition on_game_over (winner : string) (wait : Q) : Coroutine :=
  [ Pause wait;
    Do (SetGameOverText ("GAME OVER! " ++ upper winner ++ " WON!"));
    Do ShowGameOverText;
    Pause (5 # 2);
    Do HideGameOverText ].

(** [l[i]] on a Python list, for [i >= 0]. *)
Definition index {A : Type} (l : list A) (i : nat) : Exn + A :=
  match nth_error l i with
  | Some x => inr x
  | None => inl (IndexError "list index out of range")
  end.

Definition bind {A B : Type} (x : Exn + A) (f : A -> Exn + B) : Exn + B :=
  match x with
  | inl e => inl e
  | inr a => f a
  end.

Notation "x <- c ;; k" := (bind c (fun x => k))
  (at level 61, c at next level, right associativity).

(** The text built by [update_score], its four subscripts in the order the
    f-string evaluates them. *)
Definition score_text (scores : Scores) : Exn + string :=
  let player_names := keys scores in
  let player_scores := values scores in
  n0 <- index player_names 0 ;;
  s0 <- index player_scores 0 ;;
  n1 <- index player_names 1 ;;
  s1 <- index player_scores 1 ;;
  inr (upper n0 ++ ": " ++ str_int s0 ++ " vs. " ++ upper n1 ++ ": " ++ str_int s1)%string.

Definition update_score (scores : Scores) (wait : Q) : Coroutine :=
  [ Pause wait;
    match score_text scores with
    | inr s => Do (SetScoreDisplay s)
    | inl e => Raise e
    end ].

Definition animate_shot : Coroutine :=
  [ Pause (3 # 2);
    Do ControllerAnimate;
    Do ControllerAdvanceToEndOfStroke ].

(** The handlers registered with [self.accept]. *)
Definition handler (e : Event) : Coroutine :=
  match e with
  | Ev_game_over winner wait => on_game_over winner wait
  | Ev_update_score scores wait => update_score scores wait
  | Ev_animate_shot => animate_shot
  end.

Definition perform (a : Action) (v : Viewer) : Viewer :=
  match a with
  | SetGameOverText s => set_game_over_text v (set_text (game_over_text v) s)
  | ShowGameOverText => set_game_over_text v (show (game_over_text v))
  | HideGameOverText => set_game_over_text v (hide (game_over_text v))
  | SetScoreDisplay s => set_score_display v (set_text (score_display v) s)
  | ControllerAnimate => controller_call v animate
  | ControllerAdvanceToEndOfStroke => controller_call v advance_to_end_of_stroke
  end.

(** Running a coroutine to its end: the viewer it leaves, or the exception
    that stops it. *)
Fixpoint resume (c : Coroutine) (v : Viewer) : Exn + Viewer :=
  match c with
  | [] => inr v
  | Pause _ :: rest => resume rest v
  | Do a :: rest => resume rest (perform a v)
  | Raise e :: _ => inl e
  end.

(** When each step of a coroutine runs, counted from the moment [now] at
    which the coroutine starts; a pause is taken as lasting its nominal
    delay, which is meant for delays that are not negative. *)
Fixpoint timeline (now : Q) (c : Coroutine) : list (Q * Step) :=
  match c with
  | [] => []
  | Pause d :: rest => timeline (now + d) rest
  | s :: rest => (now, s) :: timeline now rest
  end.

(** The delay between the dispatch of an event and the first effect of its
    handler. *)
Definition fire_delay (e : Event) : Q :=
  match timeline 0 (handler e) with
  | [] => 0
  | (at_, _) :: _ => at_
  end.

(** The events a tick added to those already sent. *)
Definition new_events (before after : Viewer) : list Event :=
  skipn (List.length (sent before)) (sent after).

Definition result_viewer (r : TaskResult) : Viewer :=
  match r with
  | task_again v => v
  | task_done v => v
  | raised _ v => v
  end.

(** A sequence of states leaves [s] for good: once another state has been
    taken, [s] does not occur again. *)
Fixpoint never_reentered (s : StateValue) (l : list StateValue) : Prop :=
  match l with
  | [] => True
  | a :: rest => (a <> s -> Forall (fun b => b <> s) rest) /\ never_reentered s rest
  end.

(** ** The statements of the design, to compare with the code *)

(** The message variants the design enumerates for a state (its section on
    the session state machine). *)
Definition enumerated (s : ViewerState) (m : Message) : bool :=
  match s, m with
  | ConnectionPending, ConnectionClosedMessage => true
  | ConnectionPending, LoginSuccessMessage _ => true
  | ConnectionPending, LoginFailedMessage _ => true
  | Viewing, ConnectionClosedMessage => true
  | Viewing, BroadcastMessage _ _ _ => true
  | _, _ => false
  end.

(** A tick that delivers nothing, or a variant not enumerated for the
    pending state. *)
Definition keeps_pending (env : TickEnv) : bool :=
  match popped env with
  | None => true
  | Some m => negb (enumerated ConnectionPending m)
  end.

(** The design's reading of a successful login: the returned secret is
    stored in the session and the state becomes [Viewing]. *)
Definition login_success_records_secret : Prop :=
  forall (v : Viewer) (env : TickEnv) (sec : UUID),
    state v = Member ConnectionPending ->
    buffer v <> None ->
    popped env = Some (LoginSuccessMessage sec) ->
    exists v', update v env = task_again v' /\
               secret v' = Some sec /\
               state v' = Member Viewing.

(** A tick whose connect is refused. *)
Definition refused (env : TickEnv) : Prop :=
  connect_outcome env = ConnectRaises ConnectionRefusedError.

(** Connect errors that mean the server is not ready yet: [BlockingIOError]
    is what a non-blocking connect raises while the connection is in
    progress, [TimeoutError] what a blocking connect raises when the peer
    does not answer. *)
Definition not_yet_ready (k : OSErrorKind) : bool :=
  match k with
  | BlockingIOError | TimeoutError => true
  | _ => false
  end.

(** The design's reading of the connection loop: the connect is made on a
    non-blocking socket, and a refusal as well as a server that is not ready
    yet leave the viewer waiting, with nothing enqueued. *)
Definition connect_retried_as_stated : Prop :=
  forall (addr : Address) (nm : string) (sec : option UUID)
         (env : TickEnv) (k : OSErrorKind),
    connect_outcome env = ConnectRaises k ->
    (k = ConnectionRefusedError \/ not_yet_ready k = true) ->
    exists v', update (new_Viewer addr nm sec) env = task_again v' /\
               state v' = Member WaitingForConnection /\
               outgoing v' = [] /\
               calls (sock v') = [CallConnect addr false].

(** The broadcast of scenario C. *)
Definition scenario_C : Message :=
  BroadcastMessage (pt.mkSystem 5 "snapshot")
    (pt.mkShotInfo (pt.mkPlayer "bob") true (Some (pt.mkPlayer "bob")))
    [("alice", 2%Z); ("bob", 5%Z)].

(** On a clock whose value is [origin] when the events are dispatched, the
    handler of [e] first acts within half a time unit of [offset]. *)
Definition fires_near (origin : Q) (e : Event) (offset : Q) : Prop :=
  Qabs (origin + fire_delay e - offset) < 1 # 2.

(** The design's reading of scenario C: on one clock, the score update and
    the game-over banner fire at 5.0 and the shot animation at about 6.5. *)
Definition scenario_C_as_stated (v : Viewer) : Prop :=
  exists (v' : Viewer) (origin w1 w2 : Q),
    update v (arrives scenario_C) = task_again v' /\
    In (Ev_update_score [("alice", 2%Z); ("bob", 5%Z)] w1) (new_events v v') /\
    fires_near origin (Ev_update_score [("alice", 2%Z); ("bob", 5%Z)] w1) 5 /\
    In (Ev_game_over "bob" w2) (new_events v v') /\
    fires_near origin (Ev_game_over "bob" w2) 5 /\
    In Ev_animate_shot (new_events v v') /\
    fires_near origin Ev_animate_shot (13 # 2).

(** The shot info names a winner whenever it says the game is over (the
    contract of pooltool's shot info, on which [winner.name] relies). *)
Definition names_winner (info : pt.ShotInfo) : bool :=
  if pt.game_over info then
    match pt.winner info with
    | Some _ => true
    | None => false
    end
  else true.

(** The triggers the design expects from one broadcast, in the order of
    registration: the game-over trigger if the flag is set, the score update
    carrying the mapping as received, the shot animation. *)
Definition expected_triggers (sys : pt.System) (info : pt.ShotInfo) (scores : Scores)
  : list Event :=
  ((if pt.game_over info then
      match pt.winner info with
      | Some w => [Ev_game_over (pt.name w) (pt.t sys)]
      | None => []
      end
    else [])
   ++ [Ev_update_score scores (pt.t sys); Ev_animate_shot])%list.

Definition triggers_of (env : TickEnv) : list Event :=
  match popped env with
  | Some (BroadcastMessage sys info scores) => expected_triggers sys info scores
  | _ => []
  end.

(** The snapshot retained after a sequence of ticks: that of the last
    broadcast, or the one held before. *)
Fixpoint retained (current : pt.System) (envs : list TickEnv) : pt.System :=
  match envs with
  | [] => current
  | env :: rest =>
      retained
        match popped env with
        | Some (BroadcastMessage sys _ _) => sys
        | _ => current
        end rest
  end.

(** The turn indicator after a sequence of ticks: the active player of the
    last broadcast. *)
Fixpoint indicated (current : string) (envs : list TickEnv) : string :=
  match envs with
  | [] => current
  | env :: rest =>
      indicated
        match popped env with
        | Some (BroadcastMessage _ info _) =>
            ("Active player: " ++ upper (pt.name (pt.player info)))%string
        | _ => current
        end rest
  end.

(** A broadcast delivered by the tick names its winner. *)
Definition winner_named (env : TickEnv) : bool :=
  match popped env with
  | Some (BroadcastMessage _ info _) => names_winner info
  | _ => true
  end.

(** The ticks of a sequence that a viewing session executes: those up to
    and including the first that delivers [ConnectionClosedMessage]. *)
Fixpoint executed (envs : list TickEnv) : list TickEnv :=
  match envs with
  | [] => []
  | env :: rest =>
      env :: match popped env with
             | Some ConnectionClosedMessage => []
             | _ => executed rest
             end
  end.

(** The design's reading of a broadcast in [Viewing]: whatever it carries,
    the snapshot is replaced, the triggers are scheduled and the state stays
    [Viewing]. *)
Definition broadcast_handled_as_stated : Prop :=
  forall (v : Viewer) (env : TickEnv)
         (sys : pt.System) (info : pt.ShotInfo) (scores : Scores),
    state v = Member Viewing ->
    buffer v <> None ->
    popped env = Some (BroadcastMessage sys info scores) ->
    exists v',
      update v env = task_again v' /\
      state v' = Member Viewing /\
      system v' = sys /\
      In (Ev_update_score scores (pt.t sys)) (new_events v v') /\
      (pt.game_over info = true ->
       exists w, In (Ev_game_over w (pt.t sys)) (new_events v v')) /\
      In Ev_animate_shot (new_events v v').

(** A broadcast whose game is over and that names no winner. *)
Definition broadcast_without_winner : Message :=
  BroadcastMessage (pt.mkSystem 5 "snapshot")
    (pt.mkShotInfo (pt.mkPlayer "bob") true None)
    [("alice", 2%Z); ("bob", 5%Z)].

(** The messages that end the session in a state, with the line logged at
    level INFO. *)
Definition terminal_line (s : ViewerState) (m : Message) : option string :=
  match s, m with
  | ConnectionPending, ConnectionClosedMessage => Some "Server disconnected!"
  | ConnectionPending, LoginFailedMessage reason => Some ("Failed to connect! " ++ reason)%string
  | Viewing, ConnectionClosedMessage => Some "Server disconnected!"
  | _, _ => None
  end.

(** What has been enqueued in each state when the login is sent once, first
    and alone. *)
Definition login_queue (nm : string) (sec : option UUID) (x : StateValue) : list Message :=
  match x with
  | Member WaitingForConnection => []
  | _ => [LoginMessage nm sec VIEWER]
  end.

(** The invariant of the session of [nm] and [sec]: the state is a member
    of the enumeration, and the buffer exists exactly once the connection
    has succeeded, holding the one login. *)
Definition session_inv (nm : string) (sec : option UUID) (v : Viewer) : Prop :=
  name v = nm /\
  secret v = sec /\
  match state v with
  | Member WaitingForConnection => buffer v = None
  | Member _ => buffer v = Some (mkMessageBuffer false [LoginMessage nm sec VIEWER])
  | Foreign _ => False
  end.

(** ** Sample sessions *)

(** A viewer named alice without a pre-shared secret: before the connection,
    after the connection succeeded, and after the login succeeded with the
    secret 7. *)
Definition alice_waiting : Viewer := new_Viewer ("127.0.0.1", 7777%Z) "alice" None.

Definition alice_pending : Viewer := result_viewer (update alice_waiting nothing_arrives).

Definition alice_viewing : Viewer :=
  result_viewer (update alice_pending (arrives (LoginSuccessMessage 7%N))).

(** ** What the viewer holds besides the session *)

(** The viewer a run ends with. *)
Definition phase_viewer (p : Phase) : Viewer :=
  match p with
  | Scheduled v => v
  | Closed v => v
  | Crashed _ v => v
  end.

(** The system the controller is attached to: the argument of the last
    [attach_system] it was given. *)
Definition attached (c : SystemController) : option pt.System :=
  fold_left
    (fun acc call =>
       match call with
       | attach_system s => Some s
       | _ => acc
       end)
    c None.

(** The connect calls among the calls made on the socket of a viewer. *)
Definition is_connect (c : SockCall) : bool :=
  match c with
  | CallConnect _ _ => true
  | _ => false
  end.

Definition connects (v : Viewer) : list SockCall :=
  filter is_connect (calls (sock v)).

(** Nothing of the presentation has changed since [__init__]. *)
Definition presentation_untouched (v : Viewer) : Prop :=
  system v = get_initial_system pt.NINEBALL /\
  controller v = [attach_system (get_initial_system pt.NINEBALL); buildup; cue_hide_nodes] /\
  turn_indicator v = mkOnscreenText "" false /\
  score_display v = mkOnscreenText "" false /\
  game_over_text v = mkOnscreenText "" true /\
  sent v = [].

(** The viewer alice after she connected, logged in, received the broadcast
    of scenario C and was told that the connection is closed. *)
Definition alice_closed : Viewer :=
  phase_viewer
    (run alice_waiting
       [nothing_arrives; arrives (LoginSuccessMessage 7%N);
        arrives scenario_C; arrives ConnectionClosedMessage]).

(** * Theorems *)

(** ** Shared lemmas on one tick *)

(** Enter the branch of [update] for the state given by [Hs], in a viewer
    whose buffer exists, up to the dispatch on the popped message. *)
Ltac poll_buffer Hs :=
  unfold update; rewrite Hs;
  match goal with
  | |- context [match buffer ?v with Some _ => _ | None => _ end] =>
      destruct (buffer v) as [?b|] eqn:?Eb; [|congruence]
  end.

Lemma update_pending_quiet (v : Viewer) (env : TickEnv) :
  state v = Member ConnectionPending ->
  buffer v <> None ->
  keeps_pending env = true ->
  exists v', update v env = task_again v' /\
             state v' = Member ConnectionPending /\
             buffer v' = buffer v /\
             secret v' = secret v /\
             sock v' = sock v.
Proof.
  intros Hs Hb Hk. poll_buffer Hs.
  unfold keeps_pending in Hk.
  destruct (popped env) as [[nm sec ct|sec|reason| |sys info sc]|];
    simpl in Hk; try discriminate;
    eexists; (split; [reflexivity|]); simpl; auto.
Qed.

Lemma update_viewing_stays (v : Viewer) (env : TickEnv) :
  state v = Member Viewing ->
  buffer v <> None ->
  state (result_viewer (update v env)) = Member Viewing /\
  buffer (result_viewer (update v env)) = buffer v /\
  secret (result_viewer (update v env)) = secret v /\
  sock (result_viewer (update v env)) = sock v.
Proof.
  intros Hs Hb. poll_buffer Hs.
  destruct (popped env) as [[nm sec ct|sec|reason| |sys info sc]|]; simpl; auto.
  unfold on_broadcast.
  destruct (pt.game_over info); [destruct (pt.winner info)|]; simpl; auto.
Qed.

Lemma update_unexpected (v : Viewer) (env : TickEnv) (s : ViewerState) (m : Message) :
  state v = Member s ->
  s <> WaitingForConnection ->
  buffer v <> None ->
  popped env = Some m ->
  enumerated s m = false ->
  update v env = task_again (logging v WARNING "Unexpected message!").
Proof.
  intros Hs Hw Hb Hp He. poll_buffer Hs. rewrite Hp.
  destruct s; [congruence| |];
    destruct m; simpl in He; try discriminate He; reflexivity.
Qed.

Lemma update_nothing (v : Viewer) (env : TickEnv) (s : ViewerState) :
  state v = Member s ->
  s <> WaitingForConnection ->
  buffer v <> None ->
  popped env = None ->
  update v env = task_again v.
Proof.
  intros Hs Hw Hb Hp. poll_buffer Hs. rewrite Hp.
  destruct s; [congruence| |]; reflexivity.
Qed.

Lemma states_after_viewing (envs : list TickEnv) :
  forall v, state v = Member Viewing -> buffer v <> None ->
  exists k, states_after v envs = repeat (Member Viewing) k.
Proof.
  induction envs as [|env rest IH]; intros v Hs Hb.
  - exists 0%nat. reflexivity.
  - destruct (update_viewing_stays v env Hs Hb) as (Hs' & Hb' & _).
    unfold states_after in *. simpl.
    destruct (update v env) as [v'|v'|e v'] eqn:Eu; simpl in Hs', Hb'.
    + destruct (IH v' Hs') as [k Hk]; [congruence|].
      exists (S k). simpl. rewrite Hs', Hk. reflexivity.
    + exists 1%nat. simpl. rewrite Hs'. reflexivity.
    + exists 1%nat. simpl. rewrite Hs'. reflexivity.
Qed.

Lemma entries_repeat_same (s : StateValue) (k : nat) :
  StateValue_eqb s s = true -> entries s s (repeat s k) = 0%nat.
Proof.
  intros Hr. induction k as [|k IH]; [reflexivity|].
  simpl. rewrite Hr. simpl. exact IH.
Qed.

Lemma entries_pending_then_viewing (n k : nat) :
  entries (Member Viewing) (Member ConnectionPending)
    (repeat (Member ConnectionPending) n ++ repeat (Member Viewing) (S k)) = 1%nat.
Proof.
  induction n as [|n IH].
  - simpl. f_equal. apply entries_repeat_same. reflexivity.
  - simpl. exact IH.
Qed.

(** ** The login handshake *)

(** C1, as the code has it: in [ConnectionPending], after any ticks that
    deliver nothing or an unexpected variant, a [LoginSuccessMessage] logs the
    returned secret, leaves the [secret] attribute as it was and moves the
    state to [Viewing]; whatever follows, the states taken are
    [ConnectionPending] up to that tick and [Viewing] from it on, so
    [Viewing] is entered exactly once and [ConnectionPending] never again. *)
Theorem login_success_enters_viewing_once
    (v : Viewer) (pre post : list TickEnv) (env : TickEnv) (sec : UUID) :
  state v = Member ConnectionPending ->
  buffer v <> None ->
  forallb keeps_pending pre = true ->
  popped env = Some (LoginSuccessMessage sec) ->
  exists v0 v1 k,
    run v pre = Scheduled v0 /\
    update v0 env = task_again v1 /\
    state v1 = Member Viewing /\
    secret v1 = secret v /\
    log v1 = (log v0 ++ [(INFO, ("Connected! Secret: " ++ str_UUID sec)%string)])%list /\
    states_after v (pre ++ env :: post)
      = (repeat (Member ConnectionPending) (List.length pre)
           ++ repeat (Member Viewing) (S k))%list /\
    entries (Member Viewing) (state v) (states_after v (pre ++ env :: post)) = 1%nat.
Proof.
  revert v. induction pre as [|e pre IH]; intros v Hs Hb Hpre Henv.
  - pose (v1 := set_state
                  (logging v INFO ("Connected! Secret: " ++ str_UUID sec))
                  (Member Viewing)).
    assert (Hu : update v env = task_again v1).
    { poll_buffer Hs. rewrite Henv. reflexivity. }
    destruct (states_after_viewing post v1) as [k Hk]; [reflexivity|exact Hb|].
    exists v, v1, k.
    assert (Hst : states_after v ([] ++ env :: post)
                  = (repeat (Member ConnectionPending) 0
                       ++ repeat (Member Viewing) (S k))%list).
    { unfold states_after in *. simpl. rewrite Hu. simpl. rewrite Hk. reflexivity. }
    repeat split; try assumption; try reflexivity.
    rewrite Hst, Hs. apply (entries_pending_then_viewing 0 k).
  - simpl in Hpre. apply andb_prop in Hpre. destruct Hpre as [He Hpre].
    destruct (update_pending_quiet v e Hs Hb He) as (v' & Hu & Hs' & Hb' & Hsec' & _).
    destruct (IH v' Hs') as (v0 & v1 & k & Hrun & Hupd & Hv1 & Hsec & Hlog & Hst & Hent);
      [congruence|exact Hpre|exact Henv|].
    exists v0, v1, k.
    assert (Hst' : states_after v ((e :: pre) ++ env :: post)
                   = (repeat (Member ConnectionPending) (List.length (e :: pre))
                        ++ repeat (Member Viewing) (S k))%list).
    { unfold states_after in *. simpl. rewrite Hu. simpl. rewrite Hs', Hst. reflexivity. }
    repeat split; try assumption.
    + simpl. rewrite Hu. exact Hrun.
    + congruence.
    + rewrite Hst', Hs. apply (entries_pending_then_viewing (S (List.length pre)) k).
Qed.

Lemma login_success_enters_viewing_once_witness :
  exists v0 v1 k,
    run alice_pending [nothing_arrives; arrives (LoginMessage "eve" None PLAYER)]
      = Scheduled v0 /\
    update v0 (arrives (LoginSuccessMessage 7%N)) = task_again v1 /\
    state v1 = Member Viewing /\
    secret v1 = secret alice_pending /\
    log v1 = (log v0
                ++ [(INFO, ("Connected! Secret: " ++ str_UUID 7%N)%string)])%list /\
    states_after alice_pending
      ([nothing_arrives; arrives (LoginMessage "eve" None PLAYER)]
         ++ arrives (LoginSuccessMessage 7%N)
         :: [nothing_arrives; arrives ConnectionClosedMessage; nothing_arrives])
      = (repeat (Member ConnectionPending) 2 ++ repeat (Member Viewing) (S k))%list /\
    entries (Member Viewing) (state alice_pending)
      (states_after alice_pending
         ([nothing_arrives; arrives (LoginMessage "eve" None PLAYER)]
            ++ arrives (LoginSuccessMessage 7%N)
            :: [nothing_arrives; arrives ConnectionClosedMessage; nothing_arrives]))
      = 1%nat.
Proof.
  apply (login_success_enters_viewing_once alice_pending
           [nothing_arrives; arrives (LoginMessage "eve" None PLAYER)]
           [nothing_arrives; arrives ConnectionClosedMessage; nothing_arrives]
           (arrives (LoginSuccessMessage 7%N)) 7%N).
  - reflexivity.
  - discriminate.
  - reflexivity.
  - reflexivity.
Defined.

(** C1, as the design states it, fails: the viewer alice, pending without a
    secret, receives [LoginSuccessMessage 7] and still has no secret. *)
Lemma login_success_secret_not_recorded :
  update alice_pending (arrives (LoginSuccessMessage 7%N)) = task_again alice_viewing /\
  secret alice_viewing = None /\
  ~ login_success_records_secret.
Proof.
  split; [reflexivity|]. split; [reflexivity|].
  intros H.
  destruct (H alice_pending (arrives (LoginSuccessMessage 7%N)) 7%N)
    as (v' & Hu & Hsec & _); try reflexivity; try discriminate.
  assert (Hv : v' = alice_viewing).
  { assert (Hx : task_again v' = task_again alice_viewing) by (rewrite <- Hu; reflexivity).
    injection Hx. auto. }
  rewrite Hv in Hsec. discriminate Hsec.
Qed.

(** ** The connection loop *)

Lemma update_refused (v : Viewer) (env : TickEnv) :
  state v = Member WaitingForConnection ->
  refused env ->
  update v env
  = task_again
      (set_sock v
         (mkSocket (blocking (sock v)) (connected (sock v)) (closed (sock v))
            (calls (sock v) ++ [CallConnect (address v) (blocking (sock v))]))).
Proof.
  intros Hs Hr. unfold update, sock_connect. rewrite Hs, Hr. reflexivity.
Qed.

Lemma run_refusals (refusals : list TickEnv) :
  forall v, state v = Member WaitingForConnection ->
  Forall refused refusals ->
  exists v0,
    run v refusals = Scheduled v0 /\
    state v0 = Member WaitingForConnection /\
    buffer v0 = buffer v /\
    address v0 = address v /\
    name v0 = name v /\
    secret v0 = secret v /\
    blocking (sock v0) = blocking (sock v) /\
    calls (sock v0)
    = calls (sock v)
        ++ repeat (CallConnect (address v) (blocking (sock v))) (List.length refusals).
Proof.
  induction refusals as [|env rest IH]; intros v Hs Hall.
  - exists v. simpl. rewrite app_nil_r. repeat split; auto.
  - inversion Hall as [|? ? Hr Hrest]; subst.
    simpl. rewrite (update_refused v env Hs Hr).
    match goal with |- context [run ?w rest] => destruct (IH w) as (v0 & Hrun & H0) end;
      [exact Hs|exact Hrest|].
    destruct H0 as (Hs0 & Hb0 & Ha0 & Hn0 & Hsec0 & Hbl0 & Hc0).
    exists v0. simpl in *.
    repeat split; try assumption.
    rewrite Hc0, <- app_assoc. reflexivity.
Qed.

(** Refused connects are silent: the run leaves everything but the calls of
    the socket as it was, and so does each of its ticks. *)
Lemma run_refusals_silent (refusals : list TickEnv) :
  forall v, state v = Member WaitingForConnection ->
  Forall refused refusals ->
  List.length (run_trace v refusals) = List.length refusals /\
  Forall
    (fun w =>
       state w = Member WaitingForConnection /\
       buffer w = buffer v /\
       log w = log v /\
       sent w = sent v /\
       system w = system v /\
       controller w = controller v /\
       score_display w = score_display v /\
       turn_indicator w = turn_indicator v /\
       game_over_text w = game_over_text v /\
       blocking (sock w) = blocking (sock v) /\
       connected (sock w) = connected (sock v) /\
       closed (sock w) = closed (sock v))
    (phase_viewer (run v refusals) :: run_trace v refusals).
Proof.
  induction refusals as [|env rest IH]; intros v Hs Hall.
  - simpl. split; [reflexivity|]. constructor; [|constructor]. repeat split; auto.
  - inversion Hall as [|? ? Hr Hrest]; subst.
    simpl. rewrite (update_refused v env Hs Hr).
    match goal with
    | |- context [run ?w rest] => destruct (IH w Hs Hrest) as (Hlen & Hw)
    end.
    simpl in Hw.
    inversion Hw as [|? ? Hlast Htrace]; subst.
    split; [simpl; rewrite Hlen; reflexivity|].
    constructor; [exact Hlast|].
    constructor; [repeat split; auto|exact Htrace].
Qed.

(** C2, as the code has it: from the start, every tick in
    [WaitingForConnection] calls [connect] on the still blocking socket; a
    refused connect leaves the state, the missing buffer and the empty queue
    as they are and is silent (after each such tick nothing is logged,
    nothing is sent and nothing of the viewer but the socket's record of
    calls has changed), however many times it happens, and any other connect
    error leaves the tick as an exception; on the first success the socket is
    made non-blocking, the buffer is created holding exactly the one
    [LoginMessage] with the configured name, secret and the viewer kind,
    still nothing is logged, and the state becomes [ConnectionPending]. *)
Theorem connect_refused_retried_then_login
    (addr : Address) (nm : string) (sec : option UUID)
    (refusals : list TickEnv) (ok : TickEnv) :
  Forall refused refusals ->
  connect_outcome ok = ConnectOk ->
  exists v0 v1,
    run (new_Viewer addr nm sec) refusals = Scheduled v0 /\
    state v0 = Member WaitingForConnection /\
    buffer v0 = None /\
    outgoing v0 = [] /\
    calls (sock v0) = repeat (CallConnect addr true) (List.length refusals) /\
    (forall env k, connect_outcome env = ConnectRaises k ->
                   is_ConnectionRefusedError k = false ->
                   exists v', update v0 env = raised (OSError k) v') /\
    update v0 ok = task_again v1 /\
    state v1 = Member ConnectionPending /\
    blocking (sock v1) = false /\
    connected (sock v1) = true /\
    calls (sock v1)
    = calls (sock v0) ++ [CallConnect addr true; CallSetBlocking false] /\
    buffer v1 = Some (mkMessageBuffer false [LoginMessage nm sec VIEWER]) /\
    List.length (run_trace (new_Viewer addr nm sec) refusals) = List.length refusals /\
    Forall
      (fun w =>
         state w = Member WaitingForConnection /\
         buffer w = None /\
         outgoing w = [] /\
         log w = [] /\
         sent w = [] /\
         system w = system (new_Viewer addr nm sec) /\
         controller w = controller (new_Viewer addr nm sec) /\
         score_display w = score_display (new_Viewer addr nm sec) /\
         turn_indicator w = turn_indicator (new_Viewer addr nm sec) /\
         game_over_text w = game_over_text (new_Viewer addr nm sec) /\
         blocking (sock w) = true /\
         connected (sock w) = false /\
         closed (sock w) = false)
      (v0 :: run_trace (new_Viewer addr nm sec) refusals) /\
    log v1 = [] /\
    sent v1 = [] /\
    closed (sock v1) = false.
Proof.
  intros Hall Hok.
  destruct (run_refusals refusals (new_Viewer addr nm sec) eq_refl Hall)
    as (v0 & Hrun & Hs0 & Hb0 & Ha0 & Hn0 & Hsec0 & Hbl0 & Hc0).
  destruct (run_refusals_silent refusals (new_Viewer addr nm sec) eq_refl Hall)
    as (Hlen & Hsil).
  rewrite Hrun in Hsil. simpl phase_viewer in Hsil.
  simpl in Hb0, Ha0, Hn0, Hsec0, Hbl0, Hc0.
  assert (Hquiet :
    Forall
      (fun w =>
         state w = Member WaitingForConnection /\
         buffer w = None /\
         outgoing w = [] /\
         log w = [] /\
         sent w = [] /\
         system w = system (new_Viewer addr nm sec) /\
         controller w = controller (new_Viewer addr nm sec) /\
         score_display w = score_display (new_Viewer addr nm sec) /\
         turn_indicator w = turn_indicator (new_Viewer addr nm sec) /\
         game_over_text w = game_over_text (new_Viewer addr nm sec) /\
         blocking (sock w) = true /\
         connected (sock w) = false /\
         closed (sock w) = false)
      (v0 :: run_trace (new_Viewer addr nm sec) refusals)).
  { revert Hsil. apply Forall_impl.
    intros w (Hs & Hb & Hl & Hse & Hsy & Hc & Hsd & Hti & Hg & Hbl & Hco & Hcl).
    simpl in Hb, Hl, Hse, Hbl, Hco, Hcl.
    repeat split; try assumption.
    unfold outgoing. rewrite Hb. reflexivity. }
  assert (Hv0 : log v0 = [] /\ sent v0 = [] /\ closed (sock v0) = false).
  { inversion Hquiet as [|? ? Hhead _]; subst.
    destruct Hhead as (_ & _ & _ & Hl & Hse & _ & _ & _ & _ & _ & _ & _ & Hcl).
    auto. }
  destruct Hv0 as (Hl0 & Hse0 & Hcl0).
  eexists v0, _.
  split; [exact Hrun|]. split; [exact Hs0|]. split; [exact Hb0|].
  split; [unfold outgoing; rewrite Hb0; reflexivity|].
  split; [exact Hc0|].
  split.
  { intros env k Hk Hnot. unfold update, sock_connect. rewrite Hs0, Hk, Hnot.
    eexists. reflexivity. }
  split.
  { unfold update, sock_connect. rewrite Hs0, Hok. reflexivity. }
  simpl. rewrite Ha0, Hn0, Hsec0, Hbl0, <- app_assoc.
  repeat split; auto.
Qed.

Lemma connect_refused_retried_then_login_witness :
  exists v0 v1,
    run alice_waiting
      [mkTickEnv (ConnectRaises ConnectionRefusedError) None;
       mkTickEnv (ConnectRaises ConnectionRefusedError) None;
       mkTickEnv (ConnectRaises ConnectionRefusedError) None] = Scheduled v0 /\
    state v0 = Member WaitingForConnection /\
    buffer v0 = None /\
    outgoing v0 = [] /\
    calls (sock v0) = repeat (CallConnect ("127.0.0.1", 7777%Z) true) 3 /\
    (forall env k, connect_outcome env = ConnectRaises k ->
                   is_ConnectionRefusedError k = false ->
                   exists v', update v0 env = raised (OSError k) v') /\
    update v0 nothing_arrives = task_again v1 /\
    state v1 = Member ConnectionPending /\
    blocking (sock v1) = false /\
    connected (sock v1) = true /\
    calls (sock v1)
    = calls (sock v0) ++ [CallConnect ("127.0.0.1", 7777%Z) true; CallSetBlocking false] /\
    buffer v1 = Some (mkMessageBuffer false [LoginMessage "alice" None VIEWER]) /\
    List.length
      (run_trace alice_waiting
         [mkTickEnv (ConnectRaises ConnectionRefusedError) None;
          mkTickEnv (ConnectRaises ConnectionRefusedError) None;
          mkTickEnv (ConnectRaises ConnectionRefusedError) None]) = 3%nat /\
    Forall
      (fun w =>
         state w = Member WaitingForConnection /\
         buffer w = None /\
         outgoing w = [] /\
         log w = [] /\
         sent w = [] /\
         system w = system (new_Viewer ("127.0.0.1", 7777%Z) "alice" None) /\
         controller w = controller (new_Viewer ("127.0.0.1", 7777%Z) "alice" None) /\
         score_display w = score_display (new_Viewer ("127.0.0.1", 7777%Z) "alice" None) /\
         turn_indicator w = turn_indicator (new_Viewer ("127.0.0.1", 7777%Z) "alice" None) /\
         game_over_text w = game_over_text (new_Viewer ("127.0.0.1", 7777%Z) "alice" None) /\
         blocking (sock w) = true /\
         connected (sock w) = false /\
         closed (sock w) = false)
      (v0 :: run_trace alice_waiting
               [mkTickEnv (ConnectRaises ConnectionRefusedError) None;
                mkTickEnv (ConnectRaises ConnectionRefusedError) None;
                mkTickEnv (ConnectRaises ConnectionRefusedError) None]) /\
    log v1 = [] /\
    sent v1 = [] /\
    closed (sock v1) = false.
Proof.
  apply (connect_refused_retried_then_login ("127.0.0.1", 7777%Z) "alice" None
           [mkTickEnv (ConnectRaises ConnectionRefusedError) None;
            mkTickEnv (ConnectRaises ConnectionRefusedError) None;
            mkTickEnv (ConnectRaises ConnectionRefusedError) None]
           nothing_arrives).
  - repeat constructor.
  - reflexivity.
Defined.

(** C2, as the design states it, fails for the viewer alice on her first
    tick: the connect is called with the socket in blocking mode (here on a
    refusal, which is retried), and a connect that times out because the
    server is not ready ends the tick with the exception instead of being
    retried. *)
Lemma connect_blocking_and_timeout_not_retried :
  update alice_waiting (mkTickEnv (ConnectRaises ConnectionRefusedError) None)
  = task_again
      (set_sock alice_waiting
         (mkSocket true false false [CallConnect ("127.0.0.1", 7777%Z) true])) /\
  update alice_waiting (mkTickEnv (ConnectRaises TimeoutError) None)
  = raised (OSError TimeoutError)
      (set_sock alice_waiting
         (mkSocket true false false [CallConnect ("127.0.0.1", 7777%Z) true])) /\
  ~ connect_retried_as_stated.
Proof.
  split; [reflexivity|]. split; [reflexivity|].
  intros H.
  destruct (H ("127.0.0.1", 7777%Z) "alice" None
              (mkTickEnv (ConnectRaises ConnectionRefusedError) None)
              ConnectionRefusedError)
    as (v' & Hu & _ & _ & Hcalls); [reflexivity|left; reflexivity|].
  assert (Hv : v' = set_sock alice_waiting
                      (mkSocket true false false [CallConnect ("127.0.0.1", 7777%Z) true])).
  { assert (Hx : task_again v'
                 = task_again
                     (set_sock alice_waiting
                        (mkSocket true false false
                           [CallConnect ("127.0.0.1", 7777%Z) true])))
      by (rewrite <- Hu; reflexivity).
    injection Hx. auto. }
  rewrite Hv in Hcalls. simpl in Hcalls. discriminate Hcalls.
Qed.

(** ** Broadcasts *)

Lemma update_broadcast (v : Viewer) (env : TickEnv)
    (sys : pt.System) (info : pt.ShotInfo) (scores : Scores) :
  state v = Member Viewing ->
  buffer v <> None ->
  popped env = Some (BroadcastMessage sys info scores) ->
  names_winner info = true ->
  exists v',
    update v env = task_again v' /\
    state v' = Member Viewing /\
    buffer v' = buffer v /\
    system v' = sys /\
    text (turn_indicator v')
    = ("Active player: " ++ upper (pt.name (pt.player info)))%string /\
    sent v' = (sent v ++ expected_triggers sys info scores)%list /\
    log v' = log v.
Proof.
  intros Hs Hb Hp Hw. poll_buffer Hs. rewrite Hp.
  unfold on_broadcast, expected_triggers, names_winner in *.
  destruct (pt.game_over info); [destruct (pt.winner info) as [w|]; [|discriminate]|];
    eexists; (split; [reflexivity|]); simpl; rewrite <- ?app_assoc;
    repeat split; auto.
Qed.

(** C3, as the code has it: processing the broadcast of scenario C in
    [Viewing] sends, in this order, the game-over event carrying the winner
    bob and the wait 5, the score-update event carrying alice 2 and bob 5 and
    the wait 5, and the shot-animation event; counted from the dispatch the
    first two handlers act after 5 time units and the shot animation after
    3/2, and they show the banner and the score line of the scenario. *)
Theorem scenario_C_triggers (v : Viewer) (o : ConnectOutcome) :
  state v = Member Viewing ->
  buffer v <> None ->
  exists v',
    update v (mkTickEnv o (Some scenario_C)) = task_again v' /\
    new_events v v'
    = [Ev_game_over "bob" 5;
       Ev_update_score [("alice", 2%Z); ("bob", 5%Z)] 5;
       Ev_animate_shot] /\
    map fire_delay (new_events v v') = [5; 5; 3 # 2] /\
    map (fun e => timeline 0 (handler e)) (new_events v v')
    = [ [(5, Do (SetGameOverText "GAME OVER! BOB WON!"));
         (5, Do ShowGameOverText);
         (15 # 2, Do HideGameOverText)];
        [(5, Do (SetScoreDisplay "ALICE: 2 vs. BOB: 5"))];
        [(3 # 2, Do ControllerAnimate);
         (3 # 2, Do ControllerAdvanceToEndOfStroke)] ].
Proof.
  intros Hs Hb.
  destruct (update_broadcast v (mkTickEnv o (Some scenario_C)) _ _ _ Hs Hb eq_refl eq_refl)
    as (v' & Hu & _ & _ & _ & _ & Hsent & _).
  exists v'. split; [exact Hu|].
  assert (Hnew : new_events v v'
                 = [Ev_game_over "bob" 5;
                    Ev_update_score [("alice", 2%Z); ("bob", 5%Z)] 5;
                    Ev_animate_shot]).
  { unfold new_events. rewrite Hsent.
    rewrite skipn_app, skipn_all, Nat.sub_diag. reflexivity. }
  rewrite Hnew. repeat split; reflexivity.
Qed.

Lemma scenario_C_triggers_witness :
  exists v',
    update alice_viewing (mkTickEnv ConnectOk (Some scenario_C)) = task_again v' /\
    new_events alice_viewing v'
    = [Ev_game_over "bob" 5;
       Ev_update_score [("alice", 2%Z); ("bob", 5%Z)] 5;
       Ev_animate_shot] /\
    map fire_delay (new_events alice_viewing v') = [5; 5; 3 # 2] /\
    map (fun e => timeline 0 (handler e)) (new_events alice_viewing v')
    = [ [(5, Do (SetGameOverText "GAME OVER! BOB WON!"));
         (5, Do ShowGameOverText);
         (15 # 2, Do HideGameOverText)];
        [(5, Do (SetScoreDisplay "ALICE: 2 vs. BOB: 5"))];
        [(3 # 2, Do ControllerAnimate);
         (3 # 2, Do ControllerAdvanceToEndOfStroke)] ].
Proof.
  apply (scenario_C_triggers alice_viewing ConnectOk).
  - reflexivity.
  - discriminate.
Defined.

(** C3, as the design states it, fails for the viewer alice: on no clock do
    the score update and the banner fire at 5.0 and the shot animation at
    about 6.5, since the animation handler pauses 1.5 from the dispatch while
    the other two pause 5.0 from it. *)
Lemma scenario_C_animation_not_at_six_and_a_half :
  map fire_delay
    (new_events alice_viewing
       (result_viewer (update alice_viewing (arrives scenario_C))))
  = [5; 5; 3 # 2] /\
  ~ scenario_C_as_stated alice_viewing.
Proof.
  split; [reflexivity|].
  intros (v' & origin & w1 & w2 & Hu & Hin1 & Hn1 & _ & _ & _ & Hn3).
  assert (Hv : new_events alice_viewing v'
               = [Ev_game_over "bob" 5;
                  Ev_update_score [("alice", 2%Z); ("bob", 5%Z)] 5;
                  Ev_animate_shot]).
  { assert (Hx : task_again v'
                 = task_again (result_viewer (update alice_viewing (arrives scenario_C))))
      by (rewrite <- Hu; reflexivity).
    injection Hx as ->. reflexivity. }
  rewrite Hv in Hin1.
  assert (Hw : w1 = 5).
  { destruct Hin1 as [H|[H|[H|[]]]]; try discriminate H.
    injection H. auto. }
  subst w1.
  unfold fires_near in Hn1, Hn3.
  change (fire_delay (Ev_update_score [("alice", 2%Z); ("bob", 5%Z)] 5)) with (0 + 5) in Hn1.
  change (fire_delay Ev_animate_shot) with (0 + (3 # 2)) in Hn3.
  apply Qabs_Qlt_condition in Hn1, Hn3.
  lra.
Qed.

(** C4, as the code has it: in [Viewing], over any sequence of ticks whose
    broadcasts each name a winner when their game is over, the task never
    raises and the state stays [Viewing] (the task stays scheduled, or is
    removed by a [ConnectionClosedMessage]); over the ticks executed, the one
    retained snapshot is that of the last broadcast, the turn indicator names
    the active player of the last broadcast, and the events sent are, for
    each broadcast in turn, the game-over event if its flag is set, the
    score-update event carrying the mapping as received, and the
    shot-animation event. *)
Theorem broadcasts_replace_snapshot (v : Viewer) (envs : list TickEnv) :
  state v = Member Viewing ->
  buffer v <> None ->
  forallb winner_named (executed envs) = true ->
  exists v',
    (run v envs = Scheduled v' \/ run v envs = Closed v') /\
    state v' = Member Viewing /\
    system v' = retained (system v) (executed envs) /\
    text (turn_indicator v') = indicated (text (turn_indicator v)) (executed envs) /\
    sent v' = sent v ++ flat_map triggers_of (executed envs).
Proof.
  revert v. induction envs as [|env rest IH]; intros v Hs Hb Hall.
  - exists v. simpl. rewrite app_nil_r. repeat split; auto.
  - assert (Hne : Viewing <> WaitingForConnection) by discriminate.
    cbn [executed] in *. cbn [forallb] in Hall.
    apply andb_prop in Hall. destruct Hall as [He Hrest].
    unfold winner_named in He.
    cbn [retained indicated flat_map]. unfold triggers_of at 1.
    destruct (popped env) as [m|] eqn:Ep.
    + destruct m as [nm sec ct|sec|reason| |sys info scores].
      4: { (* the connection is closed: the task is removed *)
        exists (logging v INFO "Server disconnected!").
        assert (Hu : update v env = task_done (logging v INFO "Server disconnected!")).
        { poll_buffer Hs.
          rewrite Ep. reflexivity. }
        simpl. rewrite Hu, app_nil_r. repeat split; auto. }
      4: { (* a broadcast *)
        destruct (update_broadcast v env sys info scores Hs Hb Ep He)
          as (v1 & Hu & Hs1 & Hb1 & Hsys1 & Hturn1 & Hsent1 & _).
        destruct (IH v1 Hs1) as (v' & Hrun & Hs' & Hsys' & Hturn' & Hsent');
          [congruence|exact Hrest|].
        exists v'. cbn [run]. rewrite Hu.
        rewrite Hsys1 in Hsys'. rewrite Hturn1 in Hturn'. rewrite Hsent1 in Hsent'.
        rewrite <- app_assoc in Hsent'.
        repeat split; assumption. }
      (* an unexpected variant: only a warning is logged *)
      all: destruct (IH (logging v WARNING "Unexpected message!") Hs Hb Hrest)
             as (v' & Hrun & H');
           exists v'; cbn [run];
           rewrite (update_unexpected v env Viewing _ Hs Hne Hb Ep eq_refl);
           exact (conj Hrun H').
    + destruct (IH v Hs Hb Hrest) as (v' & Hrun & H').
      exists v'. cbn [run]. rewrite (update_nothing v env Viewing Hs Hne Hb Ep).
      exact (conj Hrun H').
Qed.

Lemma broadcasts_replace_snapshot_witness :
  exists v',
    (run alice_viewing
       [arrives scenario_C;
        nothing_arrives;
        arrives (BroadcastMessage (pt.mkSystem (7 # 2) "next snapshot")
                   (pt.mkShotInfo (pt.mkPlayer "alice") false None)
                   [("bob", 5%Z); ("alice", 3%Z)])] = Scheduled v' \/
     run alice_viewing
       [arrives scenario_C;
        nothing_arrives;
        arrives (BroadcastMessage (pt.mkSystem (7 # 2) "next snapshot")
                   (pt.mkShotInfo (pt.mkPlayer "alice") false None)
                   [("bob", 5%Z); ("alice", 3%Z)])] = Closed v') /\
    state v' = Member Viewing /\
    system v'
    = retained (system alice_viewing)
        (executed
           [arrives scenario_C;
            nothing_arrives;
            arrives (BroadcastMessage (pt.mkSystem (7 # 2) "next snapshot")
                       (pt.mkShotInfo (pt.mkPlayer "alice") false None)
                       [("bob", 5%Z); ("alice", 3%Z)])]) /\
    text (turn_indicator v')
    = indicated (text (turn_indicator alice_viewing))
        (executed
           [arrives scenario_C;
            nothing_arrives;
            arrives (BroadcastMessage (pt.mkSystem (7 # 2) "next snapshot")
                       (pt.mkShotInfo (pt.mkPlayer "alice") false None)
                       [("bob", 5%Z); ("alice", 3%Z)])]) /\
    sent v'
    = sent alice_viewing
        ++ flat_map triggers_of
             (executed
                [arrives scenario_C;
                 nothing_arrives;
                 arrives (BroadcastMessage (pt.mkSystem (7 # 2) "next snapshot")
                            (pt.mkShotInfo (pt.mkPlayer "alice") false None)
                            [("bob", 5%Z); ("alice", 3%Z)])]).
Proof.
  apply (broadcasts_replace_snapshot alice_viewing
           [arrives scenario_C;
            nothing_arrives;
            arrives (BroadcastMessage (pt.mkSystem (7 # 2) "next snapshot")
                       (pt.mkShotInfo (pt.mkPlayer "alice") false None)
                       [("bob", 5%Z); ("alice", 3%Z)])]).
  - reflexivity.
  - discriminate.
  - reflexivity.
Defined.

(** C4, as the design states it, fails: the viewer alice receives a
    broadcast whose game is over and that names no winner; the snapshot and
    the turn indicator are replaced, then reading the winner's name raises,
    and no event is sent. *)
Lemma broadcast_without_winner_raises :
  update alice_viewing (arrives broadcast_without_winner)
  = raised (AttributeError "'NoneType' object has no attribute 'name'")
      (set_system
         (set_turn_indicator alice_viewing (mkOnscreenText "Active player: BOB" false))
         (pt.mkSystem 5 "snapshot")) /\
  ~ broadcast_handled_as_stated.
Proof.
  split; [reflexivity|].
  intros H.
  destruct (H alice_viewing (arrives broadcast_without_winner)
              (pt.mkSystem 5 "snapshot")
              (pt.mkShotInfo (pt.mkPlayer "bob") true None)
              [("alice", 2%Z); ("bob", 5%Z)])
    as (v' & Hu & _); try reflexivity; try discriminate.
Qed.

(** ** Ending the session *)

(** C6: a [LoginFailedMessage] in [ConnectionPending], and a
    [ConnectionClosedMessage] in [ConnectionPending] or [Viewing], is logged
    at level INFO and the task returns [task.done] without raising: the task
    is removed, whatever the later ticks would have delivered none of them is
    executed, and the socket has seen no further call, so no connect is
    attempted again. *)
Theorem terminal_message_closes_session
    (v : Viewer) (env : TickEnv) (s : ViewerState) (m : Message) (line : string)
    (rest : list TickEnv) :
  state v = Member s ->
  buffer v <> None ->
  popped env = Some m ->
  terminal_line s m = Some line ->
  update v env = task_done (logging v INFO line) /\
  log (logging v INFO line) = log v ++ [(INFO, line)] /\
  run v (env :: rest) = Closed (logging v INFO line) /\
  run_trace v (env :: rest) = [logging v INFO line] /\
  sock (logging v INFO line) = sock v /\
  state (logging v INFO line) = state v.
Proof.
  intros Hs Hb Hp Ht.
  assert (Hu : update v env = task_done (logging v INFO line)).
  { poll_buffer Hs. rewrite Hp.
    destruct s; destruct m; simpl in Ht; try discriminate Ht;
      injection Ht as <-; reflexivity. }
  repeat split; simpl; try rewrite Hu; reflexivity.
Qed.

Lemma terminal_message_closes_session_witness :
  (update alice_pending (arrives (LoginFailedMessage "bad secret"))
   = task_done (logging alice_pending INFO "Failed to connect! bad secret") /\
   log (logging alice_pending INFO "Failed to connect! bad secret")
   = log alice_pending ++ [(INFO, "Failed to connect! bad secret")] /\
   run alice_pending
     (arrives (LoginFailedMessage "bad secret")
        :: [nothing_arrives; arrives (LoginSuccessMessage 7%N)])
   = Closed (logging alice_pending INFO "Failed to connect! bad secret") /\
   run_trace alice_pending
     (arrives (LoginFailedMessage "bad secret")
        :: [nothing_arrives; arrives (LoginSuccessMessage 7%N)])
   = [logging alice_pending INFO "Failed to connect! bad secret"] /\
   sock (logging alice_pending INFO "Failed to connect! bad secret") = sock alice_pending /\
   state (logging alice_pending INFO "Failed to connect! bad secret") = state alice_pending)
  /\
  (update alice_viewing (arrives ConnectionClosedMessage)
   = task_done (logging alice_viewing INFO "Server disconnected!") /\
   log (logging alice_viewing INFO "Server disconnected!")
   = log alice_viewing ++ [(INFO, "Server disconnected!")] /\
   run alice_viewing (arrives ConnectionClosedMessage :: [arrives scenario_C])
   = Closed (logging alice_viewing INFO "Server disconnected!") /\
   run_trace alice_viewing (arrives ConnectionClosedMessage :: [arrives scenario_C])
   = [logging alice_viewing INFO "Server disconnected!"] /\
   sock (logging alice_viewing INFO "Server disconnected!") = sock alice_viewing /\
   state (logging alice_viewing INFO "Server disconnected!") = state alice_viewing).
Proof.
  split.
  - apply (terminal_message_closes_session alice_pending
             (arrives (LoginFailedMessage "bad secret")) ConnectionPending
             (LoginFailedMessage "bad secret") "Failed to connect! bad secret"
             [nothing_arrives; arrives (LoginSuccessMessage 7%N)]).
    + reflexivity.
    + discriminate.
    + reflexivity.
    + reflexivity.
  - apply (terminal_message_closes_session alice_viewing
             (arrives ConnectionClosedMessage) Viewing
             ConnectionClosedMessage "Server disconnected!"
             [arrives scenario_C]).
    + reflexivity.
    + discriminate.
    + reflexivity.
    + reflexivity.
Defined.

(** ** Unexpected messages *)

(** C7: in [ConnectionPending] and in [Viewing], a message of a variant not
    enumerated for the state makes the tick log one warning and return
    [task.again]; the state and every other attribute of the viewer are
    unchanged, nothing is sent, and the run goes on with the next tick. *)
Theorem unexpected_message_tolerated
    (v : Viewer) (env : TickEnv) (s : ViewerState) (m : Message) (rest : list TickEnv) :
  state v = Member s ->
  s <> WaitingForConnection ->
  buffer v <> None ->
  popped env = Some m ->
  enumerated s m = false ->
  exists v',
    update v env = task_again v' /\
    log v' = log v ++ [(WARNING, "Unexpected message!")] /\
    state v' = state v /\
    address v' = address v /\
    system v' = system v /\
    controller v' = controller v /\
    sock v' = sock v /\
    buffer v' = buffer v /\
    name v' = name v /\
    secret v' = secret v /\
    score_display v' = score_display v /\
    turn_indicator v' = turn_indicator v /\
    game_over_text v' = game_over_text v /\
    sent v' = sent v /\
    run v (env :: rest) = run v' rest.
Proof.
  intros Hs Hw Hb Hp He.
  exists (logging v WARNING "Unexpected message!").
  pose proof (update_unexpected v env s m Hs Hw Hb Hp He) as Hu.
  split; [exact Hu|].
  simpl. rewrite Hu. repeat split; reflexivity.
Qed.

Lemma unexpected_message_tolerated_witness :
  exists v',
    update alice_pending (arrives scenario_C) = task_again v' /\
    log v' = log alice_pending ++ [(WARNING, "Unexpected message!")] /\
    state v' = state alice_pending /\
    address v' = address alice_pending /\
    system v' = system alice_pending /\
    controller v' = controller alice_pending /\
    sock v' = sock alice_pending /\
    buffer v' = buffer alice_pending /\
    name v' = name alice_pending /\
    secret v' = secret alice_pending /\
    score_display v' = score_display alice_pending /\
    turn_indicator v' = turn_indicator alice_pending /\
    game_over_text v' = game_over_text alice_pending /\
    sent v' = sent alice_pending /\
    run alice_pending (arrives scenario_C :: [arrives (LoginSuccessMessage 7%N)])
    = run v' [arrives (LoginSuccessMessage 7%N)].
Proof.
  apply (unexpected_message_tolerated alice_pending (arrives scenario_C)
           ConnectionPending scenario_C [arrives (LoginSuccessMessage 7%N)]).
  - reflexivity.
  - discriminate.
  - discriminate.
  - reflexivity.
  - reflexivity.
Defined.

(** ** Invariants of a whole run *)

Section SessionInvariant.

Variable nm : string.
Variable sec : option UUID.

Lemma update_session_inv (v : Viewer) (env : TickEnv) :
  session_inv nm sec v ->
  session_inv nm sec (result_viewer (update v env)) /\
  (state v <> Member WaitingForConnection ->
   state (result_viewer (update v env)) <> Member WaitingForConnection) /\
  (forall msg v', update v env <> raised (NotImplementedError msg) v').
Proof.
  unfold session_inv. intros (Hn & Hsec & Hst). unfold update.
  destruct (state v) as [[| |]|repr] eqn:Es; [| | |contradiction].
  - (* waiting for the connection *)
    unfold sock_connect.
    destruct (connect_outcome env) as [|k]; simpl.
    + rewrite Hn, Hsec. repeat split; try discriminate; congruence.
    + destruct (is_ConnectionRefusedError k); simpl; rewrite Es;
        repeat split; try discriminate; congruence.
  - (* connection pending *)
    rewrite Hst.
    destruct (popped env) as [[a b c|a|a| |a b c]|]; simpl; rewrite ?Es;
      repeat split; try discriminate; congruence.
  - (* viewing *)
    rewrite Hst.
    destruct (popped env) as [[a b c|a|a| |a b c]|]; simpl; rewrite ?Es;
      try (repeat split; try discriminate; congruence).
    unfold on_broadcast.
    destruct (pt.game_over b); [destruct (pt.winner b)|]; simpl; rewrite Es;
      repeat split; try discriminate; congruence.
Qed.

Lemma run_trace_session_inv (envs : list TickEnv) :
  forall v, session_inv nm sec v -> Forall (session_inv nm sec) (run_trace v envs).
Proof.
  induction envs as [|env rest IH]; intros v Hv; simpl; [constructor|].
  destruct (update_session_inv v env Hv) as (Hv' & _).
  destruct (update v env) as [v'|v'|e v']; simpl in Hv'.
  - constructor; [exact Hv'|apply IH; exact Hv'].
  - constructor; [exact Hv'|constructor].
  - constructor; [exact Hv'|constructor].
Qed.

Lemma states_after_not_waiting (envs : list TickEnv) :
  forall v, session_inv nm sec v ->
  state v <> Member WaitingForConnection ->
  Forall (fun x => x <> Member WaitingForConnection) (states_after v envs).
Proof.
  unfold states_after.
  induction envs as [|env rest IH]; intros v Hv Hw; simpl; [constructor|].
  destruct (update_session_inv v env Hv) as (Hv' & Hw' & _).
  specialize (Hw' Hw).
  destruct (update v env) as [v'|v'|e v']; simpl in Hv', Hw'; simpl.
  - constructor; [exact Hw'|apply IH; assumption].
  - constructor; [exact Hw'|constructor].
  - constructor; [exact Hw'|constructor].
Qed.

Lemma states_never_reenter_waiting (envs : list TickEnv) :
  forall v, session_inv nm sec v ->
  never_reentered (Member WaitingForConnection) (state v :: states_after v envs).
Proof.
  induction envs as [|env rest IH]; intros v Hv.
  - simpl. split; [intros _; constructor|exact I].
  - split.
    + apply states_after_not_waiting; exact Hv.
    + destruct (update_session_inv v env Hv) as (Hv' & _).
      unfold states_after. simpl.
      destruct (update v env) as [v'|v'|e v']; simpl in Hv'.
      * apply (IH v' Hv').
      * simpl. split; [intros _; constructor|exact I].
      * simpl. split; [intros _; constructor|exact I].
Qed.

Lemma run_never_unknown_state (envs : list TickEnv) :
  forall v, session_inv nm sec v ->
  forall msg v', run v envs <> Crashed (NotImplementedError msg) v'.
Proof.
  induction envs as [|env rest IH]; intros v Hv msg w; simpl; [discriminate|].
  destruct (update_session_inv v env Hv) as (Hv' & _ & Hno).
  destruct (update v env) as [v'|v'|e v'] eqn:Eu; simpl in Hv'.
  - apply IH. exact Hv'.
  - discriminate.
  - intros Hc. injection Hc as -> ->. exact (Hno msg w eq_refl).
Qed.

Lemma session_inv_outgoing (v : Viewer) :
  session_inv nm sec v -> outgoing v = login_queue nm sec (state v).
Proof.
  unfold session_inv, outgoing, login_queue. intros (_ & _ & Hst).
  destruct (state v) as [[| |]|repr]; [| | |contradiction]; rewrite Hst; reflexivity.
Qed.

Lemma session_inv_member (v : Viewer) :
  session_inv nm sec v -> exists s, state v = Member s.
Proof.
  unfold session_inv. intros (_ & _ & Hst).
  destruct (state v) as [s|repr]; [exists s; reflexivity|contradiction].
Qed.

End SessionInvariant.

Lemma new_Viewer_session_inv (addr : Address) (nm : string) (sec : option UUID) :
  session_inv nm sec (new_Viewer addr nm sec).
Proof. repeat split. Qed.

(** C5: over every sequence of ticks from the start of the process, the
    queue of the connection is empty while the viewer waits for the
    connection and holds exactly the one [LoginMessage] with the configured
    name, secret and viewer kind ever after, so the login is enqueued at most
    once and ahead of anything else; and once the state has left
    [WaitingForConnection] it never takes that value again. *)
Theorem single_login_no_reentry
    (addr : Address) (nm : string) (sec : option UUID) (envs : list TickEnv) :
  Forall (fun v => outgoing v = login_queue nm sec (state v))
    (new_Viewer addr nm sec :: run_trace (new_Viewer addr nm sec) envs) /\
  never_reentered (Member WaitingForConnection)
    (state (new_Viewer addr nm sec) :: states_after (new_Viewer addr nm sec) envs).
Proof.
  pose proof (new_Viewer_session_inv addr nm sec) as H0.
  split.
  - apply Forall_impl with (P := session_inv nm sec).
    + intros v. apply session_inv_outgoing.
    + constructor; [exact H0|apply run_trace_session_inv; exact H0].
  - apply (states_never_reenter_waiting nm sec). exact H0.
Qed.

(** C8: with a value of [state] outside the enumeration the tick raises
    [NotImplementedError] at once, leaving the viewer untouched, and the run
    ends there; and over every sequence of ticks from the start of the
    process the state is always a member of the enumeration and the run never
    ends with that error. *)
Theorem unknown_state_fatal_and_unreachable :
  (forall (v : Viewer) (repr : string) (env : TickEnv) (rest : list TickEnv),
      update (set_state v (Foreign repr)) env
      = raised (NotImplementedError "Unkown state!") (set_state v (Foreign repr)) /\
      run (set_state v (Foreign repr)) (env :: rest)
      = Crashed (NotImplementedError "Unkown state!") (set_state v (Foreign repr))) /\
  (forall (addr : Address) (nm : string) (sec : option UUID) (envs : list TickEnv),
      Forall (fun v => exists s, state v = Member s)
        (new_Viewer addr nm sec :: run_trace (new_Viewer addr nm sec) envs) /\
      forall msg v', run (new_Viewer addr nm sec) envs
                     <> Crashed (NotImplementedError msg) v').
Proof.
  split.
  - intros v repr env rest. split; reflexivity.
  - intros addr nm sec envs.
    pose proof (new_Viewer_session_inv addr nm sec) as H0.
    split.
    + apply Forall_impl with (P := session_inv nm sec).
      * intros v. apply session_inv_member.
      * constructor; [exact H0|apply run_trace_session_inv; exact H0].
    + apply (run_never_unknown_state nm sec). exact H0.
Qed.

(** ** The score line *)

(** C10: the handler of the score update needs two entries.  With fewer
    than two entries in the mapping, building the text raises [IndexError]
    and so does the handler, which after its pause does nothing but raise,
    leaving the score display unset; with two or more, the text is built
    from the first two pairs in insertion order alone (the result is the one
    for the mapping cut after them), and the handler ends with that text as
    the text of the score display, whatever the display held before. *)
Theorem update_score_needs_two_entries (scores : Scores) (wait : Q) (v : Viewer) :
  ((List.length scores < 2)%nat ->
   score_text scores = inl (IndexError "list index out of range") /\
   resume (update_score scores wait) v = inl (IndexError "list index out of range") /\
   update_score scores wait = [Pause wait; Raise (IndexError "list index out of range")]) /\
  ((2 <= List.length scores)%nat ->
   exists n0 s0 n1 s1 rest,
     scores = (n0, s0) :: (n1, s1) :: rest /\
     score_text scores
     = inr (upper n0 ++ ": " ++ str_int s0 ++ " vs. "
              ++ upper n1 ++ ": " ++ str_int s1)%string /\
     score_text scores = score_text (firstn 2 scores) /\
     resume (update_score scores wait) v
     = inr (set_score_display v
              (set_text (score_display v)
                 (upper n0 ++ ": " ++ str_int s0 ++ " vs. "
                    ++ upper n1 ++ ": " ++ str_int s1)%string)) /\
     exists v',
       resume (update_score scores wait) v = inr v' /\
       text (score_display v')
       = (upper n0 ++ ": " ++ str_int s0 ++ " vs. "
            ++ upper n1 ++ ": " ++ str_int s1)%string /\
       hidden (score_display v') = hidden (score_display v) /\
       game_over_text v' = game_over_text v /\
       turn_indicator v' = turn_indicator v /\
       state v' = state v).
Proof.
  split.
  - intros Hlen.
    destruct scores as [|[n0 s0] [|[n1 s1] rest]]; simpl in Hlen; try lia;
      repeat split; reflexivity.
  - intros Hlen.
    destruct scores as [|[n0 s0] [|[n1 s1] rest]]; simpl in Hlen; try lia.
    exists n0, s0, n1, s1, rest.
    split; [reflexivity|]. split; [reflexivity|]. split; [reflexivity|].
    split; [reflexivity|].
    eexists. split; [reflexivity|]. simpl. repeat split; reflexivity.
Qed.

Lemma update_score_needs_two_entries_witness :
  (score_text [("alice", 2%Z)] = inl (IndexError "list index out of range") /\
   resume (update_score [("alice", 2%Z)] 5) alice_viewing
   = inl (IndexError "list index out of range") /\
   update_score [("alice", 2%Z)] 5
   = [Pause 5; Raise (IndexError "list index out of range")]) /\
  (exists n0 s0 n1 s1 rest,
     [("alice", 2%Z); ("bob", 5%Z); ("carol", 9%Z)] = (n0, s0) :: (n1, s1) :: rest /\
     score_text [("alice", 2%Z); ("bob", 5%Z); ("carol", 9%Z)]
     = inr (upper n0 ++ ": " ++ str_int s0 ++ " vs. "
              ++ upper n1 ++ ": " ++ str_int s1)%string /\
     score_text [("alice", 2%Z); ("bob", 5%Z); ("carol", 9%Z)]
     = score_text (firstn 2 [("alice", 2%Z); ("bob", 5%Z); ("carol", 9%Z)]) /\
     resume (update_score [("alice", 2%Z); ("bob", 5%Z); ("carol", 9%Z)] 5) alice_viewing
     = inr (set_score_display alice_viewing
              (set_text (score_display alice_viewing)
                 (upper n0 ++ ": " ++ str_int s0 ++ " vs. "
                    ++ upper n1 ++ ": " ++ str_int s1)%string)) /\
     exists v',
       resume (update_score [("alice", 2%Z); ("bob", 5%Z); ("carol", 9%Z)] 5) alice_viewing
       = inr v' /\
       text (score_display v')
       = (upper n0 ++ ": " ++ str_int s0 ++ " vs. "
            ++ upper n1 ++ ": " ++ str_int s1)%string /\
       hidden (score_display v') = hidden (score_display alice_viewing) /\
       game_over_text v' = game_over_text alice_viewing /\
       turn_indicator v' = turn_indicator alice_viewing /\
       state v' = state alice_viewing).
Proof.
  split.
  - apply (proj1 (update_score_needs_two_entries [("alice", 2%Z)] 5 alice_viewing)).
    simpl. lia.
  - apply (proj2 (update_score_needs_two_entries
                    [("alice", 2%Z); ("bob", 5%Z); ("carol", 9%Z)] 5 alice_viewing)).
    simpl. lia.
Defined.

(** ** The exit hook and the scenarios of the design *)

(** [exit] closes the socket; nothing else in the viewer does. *)
Lemma exit_closes_socket (v : Viewer) :
  closed (sock (exit v)) = true /\
  calls (sock (exit v)) = calls (sock v) ++ [CallClose].
Proof. split; reflexivity. Qed.

(** Scenario A: the server accepts the connect, the login of alice is
    enqueued without a secret and with the viewer kind, the server answers
    with a secret, and the state becomes [Viewing]. *)
Example scenario_A :
  outgoing alice_pending = [LoginMessage "alice" None VIEWER] /\
  run alice_waiting [nothing_arrives; arrives (LoginSuccessMessage 7%N)]
  = Scheduled alice_viewing /\
  state alice_viewing = Member Viewing.
Proof. repeat split. Qed.

(** Scenario B: the server answers the login with a failure; the task is
    removed, and the socket stays open until [exit] runs. *)
Example scenario_B :
  run alice_pending [arrives (LoginFailedMessage "bad secret")]
  = Closed (logging alice_pending INFO "Failed to connect! bad secret") /\
  closed (sock (logging alice_pending INFO "Failed to connect! bad secret")) = false.
Proof. split; reflexivity. Qed.

(** The score line of scenario C, as the handler leaves it on the screen. *)
Example scenario_C_score_line :
  exists v',
    resume (update_score [("alice", 2%Z); ("bob", 5%Z)] 5) alice_viewing = inr v' /\
    text (score_display v') = "ALICE: 2 vs. BOB: 5".
Proof. eexists. split; reflexivity. Qed.

(** Scenario D: the connect is refused on three ticks and accepted on the
    fourth. *)
Example scenario_D :
  states_after alice_waiting
    [mkTickEnv (ConnectRaises ConnectionRefusedError) None;
     mkTickEnv (ConnectRaises ConnectionRefusedError) None;
     mkTickEnv (ConnectRaises ConnectionRefusedError) None;
     nothing_arrives]
  = [Member WaitingForConnection; Member WaitingForConnection;
     Member WaitingForConnection; Member ConnectionPending] /\
  map outgoing
    (run_trace alice_waiting
       [mkTickEnv (ConnectRaises ConnectionRefusedError) None;
        mkTickEnv (ConnectRaises ConnectionRefusedError) None;
        mkTickEnv (ConnectRaises ConnectionRefusedError) None;
        nothing_arrives])
  = [[]; []; []; [LoginMessage "alice" None VIEWER]].
Proof. split; reflexivity. Qed.

(** * Further properties of the code *)

(** ** Invariants carried along a run *)

Section RunInvariant.

Variable P : Viewer -> Prop.
Hypothesis P_update : forall v env, P v -> P (result_viewer (update v env)).

Lemma run_trace_invariant (envs : list TickEnv) :
  forall v, P v -> Forall P (run_trace v envs).
Proof.
  induction envs as [|env rest IH]; intros v Hv; simpl; [constructor|].
  pose proof (P_update v env Hv) as Hv'.
  destruct (update v env) as [v'|v'|e v']; simpl in Hv';
    constructor; auto.
Qed.

Lemma run_invariant (envs : list TickEnv) :
  forall v, P v -> P (phase_viewer (run v envs)).
Proof.
  induction envs as [|env rest IH]; intros v Hv; simpl; [exact Hv|].
  pose proof (P_update v env Hv) as Hv'.
  destruct (update v env) as [v'|v'|e v']; simpl in Hv'; simpl; auto.
Qed.

End RunInvariant.

Lemma update_frame (v : Viewer) (env : TickEnv) :
  address (result_viewer (update v env)) = address v /\
  name (result_viewer (update v env)) = name v /\
  secret (result_viewer (update v env)) = secret v /\
  score_display (result_viewer (update v env)) = score_display v /\
  game_over_text (result_viewer (update v env)) = game_over_text v /\
  closed (sock (result_viewer (update v env))) = closed (sock v) /\
  (In CallClose (calls (sock (result_viewer (update v env)))) ->
   In CallClose (calls (sock v))).
Proof.
  unfold update.
  destruct (state v) as [[| |]|repr].
  - unfold sock_connect.
    destruct (connect_outcome env) as [|k]; [|destruct (is_ConnectionRefusedError k)];
      simpl; repeat split; auto; intros Hin;
      repeat (apply in_app_or in Hin; destruct Hin as [Hin|Hin]; auto);
      simpl in Hin; intuition discriminate.
  - destruct (buffer v);
      [destruct (popped env) as [[a b c|a|a| |a b c]|]|]; simpl; repeat split; auto.
  - destruct (buffer v);
      [destruct (popped env) as [[a b c|a|a| |a b c]|]|]; simpl; repeat split; auto;
      unfold on_broadcast;
      (destruct (pt.game_over b); [destruct (pt.winner b)|]); simpl; auto.
  - simpl. repeat split; auto.
Qed.

(** X1: whatever the ticks deliver and from whatever viewer, a run never
    changes the address, the name or the secret of the viewer, nor the score
    display or the game-over text (which only the handlers write). *)
Theorem run_keeps_configuration (v : Viewer) (envs : list TickEnv) :
  Forall
    (fun v' =>
       address v' = address v /\
       name v' = name v /\
       secret v' = secret v /\
       score_display v' = score_display v /\
       game_over_text v' = game_over_text v)
    (run_trace v envs).
Proof.
  apply run_trace_invariant.
  - intros w env (Ha & Hn & Hs & Hd & Hg).
    destruct (update_frame w env) as (Ha' & Hn' & Hs' & Hd' & Hg' & _).
    repeat split; congruence.
  - repeat split.
Qed.

(** X2: no tick closes the socket.  From [__init__] on, after every tick of
    every run, also the one that ends the session or raises, the socket is
    open and [close] was never called on it; it is [exit] that closes it. *)
Theorem socket_closed_only_by_exit
    (addr : Address) (nm : string) (sec : option UUID) (envs : list TickEnv) :
  Forall
    (fun v' =>
       closed (sock v') = false /\
       ~ In CallClose (calls (sock v')) /\
       closed (sock (exit v')) = true)
    (run_trace (new_Viewer addr nm sec) envs).
Proof.
  apply Forall_impl
    with (P := fun v' => closed (sock v') = false /\ ~ In CallClose (calls (sock v'))).
  - intros w (Hc & Hn). repeat split; assumption.
  - apply run_trace_invariant.
    + intros w env (Hc & Hn).
      destruct (update_frame w env) as (_ & _ & _ & _ & _ & Hc' & Hn').
      split; [congruence|intros Hin; apply Hn, Hn', Hin].
    + split; [reflexivity|intros []].
Qed.

Lemma update_connected (v : Viewer) (env : TickEnv) :
  state v <> Member WaitingForConnection ->
  sock (result_viewer (update v env)) = sock v /\
  state (result_viewer (update v env)) <> Member WaitingForConnection.
Proof.
  intros Hs. unfold update.
  destruct (state v) as [[| |]|repr] eqn:Es; [congruence| | |].
  - destruct (buffer v);
      [destruct (popped env) as [[a b c|a|a| |a b c]|]|]; simpl; rewrite ?Es;
      split; auto; discriminate.
  - destruct (buffer v);
      [destruct (popped env) as [[a b c|a|a| |a b c]|]|]; simpl; rewrite ?Es;
      try (split; auto; discriminate).
    unfold on_broadcast.
    destruct (pt.game_over b); [destruct (pt.winner b)|]; simpl; rewrite Es;
      split; auto; discriminate.
  - simpl. rewrite Es. split; auto.
Qed.

(** X3: the viewer connects once.  From any viewer whose state has left
    [WaitingForConnection], over every sequence of ticks, the state never
    returns to it and [update] makes no further call of [connect]: the
    connect calls recorded on the socket stay exactly those made before. *)
Theorem no_connect_after_connected (v : Viewer) (envs : list TickEnv) :
  state v <> Member WaitingForConnection ->
  Forall
    (fun v' =>
       connects v' = connects v /\
       state v' <> Member WaitingForConnection)
    (run_trace v envs).
Proof.
  intros Hs.
  apply run_trace_invariant
    with (P := fun v' => connects v' = connects v /\
                         state v' <> Member WaitingForConnection).
  - intros w env (Hc & Hw).
    destruct (update_connected w env Hw) as (Hsock & Hw').
    split; [|exact Hw']. unfold connects in *. rewrite Hsock. exact Hc.
  - split; [reflexivity|exact Hs].
Qed.

Lemma no_connect_after_connected_witness :
  Forall
    (fun v' =>
       connects v' = connects alice_pending /\
       state v' <> Member WaitingForConnection)
    (run_trace alice_pending
       [nothing_arrives; arrives (LoginSuccessMessage 7%N);
        mkTickEnv (ConnectRaises ConnectionRefusedError) (Some scenario_C);
        arrives ConnectionClosedMessage]).
Proof.
  apply (no_connect_after_connected alice_pending
           [nothing_arrives; arrives (LoginSuccessMessage 7%N);
            mkTickEnv (ConnectRaises ConnectionRefusedError) (Some scenario_C);
            arrives ConnectionClosedMessage]).
  discriminate.
Defined.

Lemma update_finds_buffer (nm : string) (sec : option UUID) (v : Viewer) (env : TickEnv) :
  session_inv nm sec v ->
  forall v', update v env
             <> raised (AttributeError "'Viewer' object has no attribute 'buffer'") v'.
Proof.
  unfold session_inv. intros (_ & _ & Hst) w. unfold update.
  destruct (state v) as [[| |]|repr] eqn:Es; [| | |contradiction].
  - unfold sock_connect.
    destruct (connect_outcome env) as [|k]; [|destruct (is_ConnectionRefusedError k)];
      discriminate.
  - rewrite Hst.
    destruct (popped env) as [[a b c|a|a| |a b c]|]; discriminate.
  - rewrite Hst.
    destruct (popped env) as [[a b c|a|a| |a b c]|]; try discriminate.
    unfold on_broadcast.
    destruct (pt.game_over b); [destruct (pt.winner b)|]; discriminate.
Qed.

Lemma run_finds_buffer (nm : string) (sec : option UUID) (envs : list TickEnv) :
  forall v, session_inv nm sec v ->
  forall v', run v envs
             <> Crashed (AttributeError "'Viewer' object has no attribute 'buffer'") v'.
Proof.
  induction envs as [|env rest IH]; intros v Hv w; simpl; [discriminate|].
  destruct (update_session_inv nm sec v env Hv) as (Hv' & _).
  pose proof (update_finds_buffer nm sec v env Hv) as Hno.
  destruct (update v env) as [v1|v1|e v1] eqn:Eu; simpl in Hv'.
  - apply IH. exact Hv'.
  - discriminate.
  - intros Hc. injection Hc as -> ->. exact (Hno w eq_refl).
Qed.

Lemma session_inv_buffer (nm : string) (sec : option UUID) (v : Viewer) :
  session_inv nm sec v ->
  (state v = Member WaitingForConnection -> buffer v = None) /\
  (state v <> Member WaitingForConnection -> exists b, buffer v = Some b).
Proof.
  unfold session_inv. intros (_ & _ & Hst).
  destruct (state v) as [[| |]|repr]; [| | |contradiction];
    split; intros H; try congruence; eauto.
Qed.

(** X4: the buffer is assigned before it is read.  [__init__] only
    annotates [self.buffer]; yet in every run it starts, before and after
    every tick, the buffer is missing exactly while the state is
    [WaitingForConnection], the one state whose branch does not read it, and
    no run ends with the attribute error of a missing buffer. *)
Theorem buffer_assigned_before_read
    (addr : Address) (nm : string) (sec : option UUID) (envs : list TickEnv) :
  Forall
    (fun v =>
       (state v = Member WaitingForConnection -> buffer v = None) /\
       (state v <> Member WaitingForConnection -> exists b, buffer v = Some b))
    (new_Viewer addr nm sec :: run_trace (new_Viewer addr nm sec) envs) /\
  forall v', run (new_Viewer addr nm sec) envs
             <> Crashed (AttributeError "'Viewer' object has no attribute 'buffer'") v'.
Proof.
  pose proof (new_Viewer_session_inv addr nm sec) as H0.
  split.
  - apply Forall_impl with (P := session_inv nm sec).
    + intros v. apply session_inv_buffer.
    + constructor; [exact H0|apply run_trace_session_inv; exact H0].
  - apply (run_finds_buffer nm sec). exact H0.
Qed.

(** ** The presentation *)

Lemma update_presentation (v : Viewer) (env : TickEnv) :
  (state v <> Member Viewing -> presentation_untouched v) ->
  state (result_viewer (update v env)) <> Member Viewing ->
  presentation_untouched (result_viewer (update v env)).
Proof.
  unfold presentation_untouched, update. intros Hv.
  destruct (state v) as [[| |]|repr] eqn:Es.
  - unfold sock_connect.
    destruct (connect_outcome env) as [|k]; [|destruct (is_ConnectionRefusedError k)];
      simpl; intros _; apply Hv; discriminate.
  - destruct (buffer v);
      [destruct (popped env) as [[a b c|a|a| |a b c]|]|]; simpl; rewrite ?Es;
      intros Hn; try (apply Hv; discriminate); congruence.
  - destruct (buffer v);
      [destruct (popped env) as [[a b c|a|a| |a b c]|]|]; simpl; rewrite ?Es;
      try congruence.
    unfold on_broadcast.
    destruct (pt.game_over b); [destruct (pt.winner b)|]; simpl; rewrite Es; congruence.
  - simpl. rewrite Es. intros _. apply Hv. discriminate.
Qed.

(** X5: nothing is presented before the login has succeeded.  From
    [__init__] on, before and after every tick of every run, as long as the
    state is not [Viewing] the viewer still holds the initial rack, the
    controller has seen only its three initial calls, the three texts are as
    created and no event has been sent; a broadcast that arrives earlier
    leaves no trace in them. *)
Theorem presentation_waits_for_login
    (addr : Address) (nm : string) (sec : option UUID) (envs : list TickEnv) :
  Forall (fun v => state v <> Member Viewing -> presentation_untouched v)
    (new_Viewer addr nm sec :: run_trace (new_Viewer addr nm sec) envs).
Proof.
  assert (H0 : state (new_Viewer addr nm sec) <> Member Viewing ->
               presentation_untouched (new_Viewer addr nm sec)).
  { intros _. repeat split. }
  constructor; [exact H0|].
  apply run_trace_invariant with
    (P := fun v => state v <> Member Viewing -> presentation_untouched v);
    [|exact H0].
  intros v env Hv. apply update_presentation. exact Hv.
Qed.

Lemma attached_app (c1 c2 : SystemController) :
  attached (c1 ++ c2)
  = match attached c2 with
    | Some s => Some s
    | None => attached c1
    end.
Proof.
  revert c1. induction c2 as [|call rest IH] using rev_ind; intros c1.
  - rewrite app_nil_r. reflexivity.
  - rewrite app_assoc.
    assert (Hlast : forall c, attached (c ++ [call])
                              = match call with
                                | attach_system s => Some s
                                | _ => attached c
                                end).
    { intros c. unfold attached. rewrite fold_left_app. destruct call; reflexivity. }
    rewrite !Hlast. destruct call; auto.
Qed.

Lemma update_attached (v : Viewer) (env : TickEnv) :
  attached (controller v) = Some (system v) ->
  match update v env with
  | task_again v' | task_done v' => attached (controller v') = Some (system v')
  | raised _ _ => True
  end.
Proof.
  intros Hv. unfold update.
  destruct (state v) as [[| |]|repr]; [| | |exact I].
  - unfold sock_connect.
    destruct (connect_outcome env) as [|k]; [|destruct (is_ConnectionRefusedError k)];
      simpl; auto.
  - destruct (buffer v);
      [destruct (popped env) as [[a b c|a|a| |a b c]|]|]; simpl; auto.
  - destruct (buffer v);
      [destruct (popped env) as [[a b c|a|a| |a b c]|]|]; simpl; auto.
    unfold on_broadcast.
    destruct (pt.game_over b); [destruct (pt.winner b)|]; simpl; auto;
      unfold controller_call; simpl;
      rewrite <- !app_assoc; simpl; rewrite attached_app; reflexivity.
Qed.

Lemma run_attached (envs : list TickEnv) :
  forall v v',
    attached (controller v) = Some (system v) ->
    run v envs = Scheduled v' \/ run v envs = Closed v' ->
    attached (controller v') = Some (system v').
Proof.
  induction envs as [|env rest IH]; intros v w Hv Hrun; simpl in Hrun.
  - destruct Hrun as [H|H]; [injection H as <-; exact Hv|discriminate].
  - pose proof (update_attached v env Hv) as Hu.
    destruct (update v env) as [v1|v1|e v1].
    + apply (IH v1 w Hu Hrun).
    + destruct Hrun as [H|H]; [discriminate|injection H as <-; exact Hu].
    + destruct Hrun as [H|H]; discriminate.
Qed.

(** X6: the controller shows the snapshot the viewer holds.  After every run
    started by [__init__] that has not raised (the task is still scheduled or
    was removed by the end of the session), the system last attached to the
    controller is the viewer's current system. *)
Theorem controller_attached_to_current_system
    (addr : Address) (nm : string) (sec : option UUID) (envs : list TickEnv)
    (v' : Viewer) :
  run (new_Viewer addr nm sec) envs = Scheduled v' \/
  run (new_Viewer addr nm sec) envs = Closed v' ->
  attached (controller v') = Some (system v').
Proof.
  apply run_attached. reflexivity.
Qed.

Lemma controller_attached_to_current_system_witness :
  attached (controller alice_closed) = Some (system alice_closed).
Proof.
  apply (controller_attached_to_current_system ("127.0.0.1", 7777%Z) "alice" None
           [nothing_arrives; arrives (LoginSuccessMessage 7%N);
            arrives scenario_C; arrives ConnectionClosedMessage] alice_closed).
  right. vm_compute. reflexivity.
Defined.

(** X7: a handler touches its own widget and nothing else.  Whenever the
    handler of an event runs to its end, the state, the socket, the buffer,
    the configuration, the system, the turn indicator, the log and the events
    sent are as before; [on_game_over] leaves the score display and the
    controller alone, [update_score] the game-over text and the controller,
    and [animate_shot] both texts, adding to the controller exactly
    [animate] then [advance_to_end_of_stroke]. *)
Theorem handler_touches_only_its_widget (e : Event) (v v' : Viewer) :
  resume (handler e) v = inr v' ->
  state v' = state v /\
  sock v' = sock v /\
  buffer v' = buffer v /\
  address v' = address v /\
  name v' = name v /\
  secret v' = secret v /\
  system v' = system v /\
  turn_indicator v' = turn_indicator v /\
  log v' = log v /\
  sent v' = sent v /\
  match e with
  | Ev_game_over _ _ =>
      score_display v' = score_display v /\ controller v' = controller v
  | Ev_update_score _ _ =>
      game_over_text v' = game_over_text v /\ controller v' = controller v
  | Ev_animate_shot =>
      score_display v' = score_display v /\
      game_over_text v' = game_over_text v /\
      controller v' = controller v ++ [animate; advance_to_end_of_stroke]
  end.
Proof.
  destruct e as [winner wait|scores wait|]; simpl.
  - intros H. injection H as <-. simpl. repeat split.
  - unfold update_score. destruct (score_text scores) as [err|txt]; simpl;
      [discriminate|].
    intros H. injection H as <-. simpl. repeat split.
  - intros H. injection H as <-. simpl. rewrite <- app_assoc. repeat split.
Qed.

Lemma handler_touches_only_its_widget_witness :
  state (perform (SetScoreDisplay "ALICE: 2 vs. BOB: 5") alice_viewing)
  = state alice_viewing /\
  sock (perform (SetScoreDisplay "ALICE: 2 vs. BOB: 5") alice_viewing)
  = sock alice_viewing /\
  buffer (perform (SetScoreDisplay "ALICE: 2 vs. BOB: 5") alice_viewing)
  = buffer alice_viewing /\
  address (perform (SetScoreDisplay "ALICE: 2 vs. BOB: 5") alice_viewing)
  = address alice_viewing /\
  name (perform (SetScoreDisplay "ALICE: 2 vs. BOB: 5") alice_viewing)
  = name alice_viewing /\
  secret (perform (SetScoreDisplay "ALICE: 2 vs. BOB: 5") alice_viewing)
  = secret alice_viewing /\
  system (perform (SetScoreDisplay "ALICE: 2 vs. BOB: 5") alice_viewing)
  = system alice_viewing /\
  turn_indicator (perform (SetScoreDisplay "ALICE: 2 vs. BOB: 5") alice_viewing)
  = turn_indicator alice_viewing /\
  log (perform (SetScoreDisplay "ALICE: 2 vs. BOB: 5") alice_viewing)
  = log alice_viewing /\
  sent (perform (SetScoreDisplay "ALICE: 2 vs. BOB: 5") alice_viewing)
  = sent alice_viewing /\
  game_over_text (perform (SetScoreDisplay "ALICE: 2 vs. BOB: 5") alice_viewing)
  = game_over_text alice_viewing /\
  controller (perform (SetScoreDisplay "ALICE: 2 vs. BOB: 5") alice_viewing)
  = controller alice_viewing.
Proof.
  apply (handler_touches_only_its_widget
           (Ev_update_score [("alice", 2%Z); ("bob", 5%Z)] 5) alice_viewing
           (perform (SetScoreDisplay "ALICE: 2 vs. BOB: 5") alice_viewing)).
  reflexivity.
Defined.
